(** * Root/commentary extraction and pairing: a shallow embedding

    The repository is a handful of Python scripts that cut a combined
    manuscript file into one unit per verse or commentary section
    ([bca_p_extraction.py], [mua_extraction.py], [bca_root_extract.py],
    [seni_extract.py], [medū.py]) and a script that pairs the extracted
    root files with their commentaries ([count_pairs.py]).  The embedding
    starts where a script holds the decoded text of its input file, or the
    directory listing; of [extract_ht.py], which joins two files by verse
    number, the reading of the commentary file is left out.

    Text is a list of characters.  A character is a code point in
    U+0000..U+00FF (the shape every document takes under the scripts'
    [latin1] fallback); on that range [is_space] is Python's
    [str.isspace] and [is_digit] is the regex class [\d].

    File writes and [print]ed warnings are modelled as an event log:
    each extraction function returns the events in program order. *)

From Stdlib Require Import String.
From Stdlib Require Import List Arith Lia Bool Ascii Permutation Sorted.
Import ListNotations.

Set Implicit Arguments.

(** ** Text and the Python string methods the scripts use *)

Definition text := list ascii.

(** String literals of the source. *)
Definition T (s : string) : text := list_ascii_of_string s.
Arguments T s%_string.

Definition NL : ascii := "010"%char.

Fixpoint text_eqb (a b : text) : bool :=
  match a, b with
  | [], [] => true
  | x :: a', y :: b' => Ascii.eqb x y && text_eqb a' b'
  | _, _ => false
  end.

(** [str.isspace] for one character of U+0000..U+00FF:
    TAB LF VT FF CR, FS GS RS US, SPACE, NEL, NBSP. *)
Definition is_space (c : ascii) : bool :=
  let n := nat_of_ascii c in
  ((9 <=? n) && (n <=? 13)) || ((28 <=? n) && (n <=? 32))
  || (n =? 133) || (n =? 160).

(** The regex class [\d] on U+0000..U+00FF. *)
Definition is_digit (c : ascii) : bool :=
  let n := nat_of_ascii c in (48 <=? n) && (n <=? 57).

Fixpoint dropwhile (p : ascii -> bool) (s : text) : text :=
  match s with
  | [] => []
  | c :: s' => if p c then dropwhile p s' else s
  end.

Fixpoint takewhile (p : ascii -> bool) (s : text) : text :=
  match s with
  | [] => []
  | c :: s' => if p c then c :: takewhile p s' else []
  end.

(** [s.lstrip()], [s.rstrip()], [s.strip()], [s.lstrip('\n')]. *)
Definition lstrip (s : text) : text := dropwhile is_space s.
Definition rstrip (s : text) : text := rev (dropwhile is_space (rev s)).
Definition strip (s : text) : text := rstrip (lstrip s).
Definition lstrip_nl (s : text) : text := dropwhile (Ascii.eqb NL) s.

(** [s.startswith(p)]. *)
Fixpoint startswith (p s : text) : bool :=
  match p, s with
  | [], _ => true
  | x :: p', y :: s' => Ascii.eqb x y && startswith p' s'
  | _ :: _, [] => false
  end.

(** [s.endswith(suf)]. *)
Definition endswith (s suf : text) : bool :=
  (length suf <=? length s)
  && text_eqb (skipn (length s - length suf) s) suf.

(** The slice [s[:-k]]. *)
Definition drop_last (k : nat) (s : text) : text :=
  firstn (length s - k) s.

(** [sep.join(parts)]. *)
Fixpoint join (sep : text) (parts : list text) : text :=
  match parts with
  | [] => []
  | [p] => p
  | p :: rest => p ++ sep ++ join sep rest
  end.

(** [s.split('\n')]: always at least one piece. *)
Fixpoint split_nl_aux (cur : text) (s : text) : list text :=
  match s with
  | [] => [rev cur]
  | c :: s' =>
      if Ascii.eqb c NL then rev cur :: split_nl_aux [] s'
      else split_nl_aux (c :: cur) s'
  end.

Definition split_nl (s : text) : list text := split_nl_aux [] s.

(** [s.split('---')]: leftmost occurrences, non overlapping. *)
Fixpoint split_dashes_aux (cur : text) (s : text) : list text :=
  match s with
  | [] => [rev cur]
  | c :: s' =>
      match s with
      | "-"%char :: "-"%char :: "-"%char :: rest =>
          rev cur :: split_dashes_aux [] rest
      | _ => split_dashes_aux (c :: cur) s'
      end
  end.

Definition split_dashes (s : text) : list text := split_dashes_aux [] s.

(** ** [count_pairs.py] *)

Module CountPairs.

Inductive pair_type := RootOnly | SinglePair | MultiplePairs.

(** One entry of [results]. *)
Record result := mkResult {
  root : text;
  commentaries : list text;
  pairs : nat;
  type : pair_type
}.

(** The dictionary [count_pairs_root_first] returns. *)
Record report := mkReport {
  total_root_files : nat;
  root_only_count : nat;
  single_pair_count : nat;
  multiple_pair_count : nat;
  total_pairs : nat;
  results : list result
}.

Definition root_suffix : text := T "_root".

(** [[f for f in files if f.endswith('_root')]] *)
Definition root_files (files : list text) : list text :=
  filter (fun f => endswith f root_suffix) files.

(** [[f for f in files if f.startswith(prefix + '_') and
      not f.endswith('_root')]] *)
Definition find_commentaries (files : list text) (prefix : text) : list text :=
  filter (fun f => startswith (prefix ++ T "_") f
                   && negb (endswith f root_suffix)) files.

(** The loop variables. *)
Record acc := mkAcc {
  a_total_pairs : nat;
  a_root_only : nat;
  a_single : nat;
  a_multiple : nat;
  a_results : list result
}.

(** One iteration of [for root_file in root_files]. *)
Definition step (files : list text) (st : acc) (root_file : text) : acc :=
  let prefix := drop_last 5 root_file in
  let comms := find_commentaries files prefix in
  let num_commentaries := length comms in
  match num_commentaries with
  | 0 =>
      mkAcc (a_total_pairs st) (a_root_only st + 1) (a_single st)
            (a_multiple st)
            (a_results st ++ [mkResult root_file comms 0 RootOnly])
  | 1 =>
      mkAcc (a_total_pairs st + 1) (a_root_only st) (a_single st + 1)
            (a_multiple st)
            (a_results st ++ [mkResult root_file comms 1 SinglePair])
  | _ =>
      mkAcc (a_total_pairs st + num_commentaries) (a_root_only st)
            (a_single st) (a_multiple st + 1)
            (a_results st
               ++ [mkResult root_file comms num_commentaries MultiplePairs])
  end.

(** [count_pairs_root_first], on the directory listing [files]. *)
Definition count_pairs_root_first (files : list text) : report :=
  let roots := root_files files in
  let st := fold_left (step files) roots (mkAcc 0 0 0 0 []) in
  mkReport (length roots) (a_root_only st) (a_single st) (a_multiple st)
           (a_total_pairs st) (a_results st).

(** The category of a root as the specification words it:
    a function of the match count alone. *)
Definition category (n : nat) : pair_type :=
  match n with
  | 0 => RootOnly
  | 1 => SinglePair
  | _ => MultiplePairs
  end.

Definition is_multiple (r : result) : bool :=
  match type r with MultiplePairs => true | _ => false end.

(** [sum(r['pairs'] for r in results if r['type'] == 'multiple-pairs')] *)
Definition multiple_pairs_sum (rs : list result) : nat :=
  list_sum (map pairs (filter is_multiple rs)).

(** What one iteration appends to [results], with the category
    computed from the count. *)
Definition entry_of (files : list text) (root_file : text) : result :=
  let comms := find_commentaries files (drop_last 5 root_file) in
  mkResult root_file comms (length comms) (category (length comms)).

(** Loop invariant: the counters agree with the entries collected so far. *)
Definition counters_ok (st : acc) : Prop :=
  a_total_pairs st = a_single st + multiple_pairs_sum (a_results st)
  /\ a_root_only st + a_single st + a_multiple st = length (a_results st).

(** The files of a listing that are not root files. *)
Definition commentary_files (files : list text) : list text :=
  filter (fun f => negb (endswith f root_suffix)) files.

End CountPairs.

(** ** What an extraction run does: the event log

    [Wrote k c] is the [file.write(c)] into the file named after key [k];
    [EmptySkipped k] is the printed "Warning: ... k is empty, skipping...";
    [CountMismatch k n] is the printed "Warning: Found n root lines in
    verse k, expected 2".  Progress messages are not recorded. *)

Inductive event (K : Type) : Type :=
| Wrote (key : K) (content : text)
| EmptySkipped (key : K)
| CountMismatch (key : K) (n : nat).

Arguments Wrote {K} key content.
Arguments EmptySkipped {K} key.
Arguments CountMismatch {K} key n.

(** The units an event log persists, in writing order. *)
Fixpoint written {K : Type} (log : list (event K)) : list (K * text) :=
  match log with
  | [] => []
  | Wrote k c :: log' => (k, c) :: written log'
  | _ :: log' => written log'
  end.

(** [c] is [src] with white space cut off its two ends and nothing else
    changed. *)
Definition trimmed_from (src c : text) : Prop :=
  exists pre post,
    src = pre ++ c ++ post
    /\ forallb is_space pre = true /\ forallb is_space post = true.





(** Python's truth value of a list: [not l]. *)
Definition is_empty_list {A : Type} (l : list A) : bool :=
  match l with [] => true | _ :: _ => false end.

(** Python's truth value of a string: [not s]. *)
Definition is_empty (s : text) : bool :=
  match s with [] => true | _ :: _ => false end.

(** ** The section-header dialect: [re.split(r'^--- (KEY)$', content,
    flags=re.MULTILINE)]

    The pattern holds no newline, and under [re.MULTILINE] [^] and [$]
    anchor it to the start and the end of a line: a match is a whole line
    of [content.split('\n')] of the shape [--- KEY].  [re.split] returns
    the text before the first match, then for every match its group and
    the text up to the next match; the newline that ends a marker line
    stays in front of the text that follows it. *)

Module SectionHeader.

Definition all_digits (s : text) : bool :=
  negb (is_empty s) && forallb is_digit s.

(** The line is [--- ] followed by [\d+]: the captured key. *)
Definition marker_int (line : text) : option text :=
  match line with
  | "-"%char :: "-"%char :: "-"%char :: " "%char :: k =>
      if all_digits k then Some k else None
  | _ => None
  end.

(** The line is [--- ] followed by [\d+\.\d+]: the captured key. *)
Definition marker_dotted (line : text) : option text :=
  match line with
  | "-"%char :: "-"%char :: "-"%char :: " "%char :: k =>
      match dropwhile is_digit k with
      | "."%char :: d2 =>
          if negb (is_empty (takewhile is_digit k)) && all_digits d2
          then Some k else None
      | _ => None
      end
  | _ => None
  end.

Section Split.

Variable marker : text -> option text.

(** The newline between a line and the next one, when there is a next one. *)
Definition eol (rest : list text) : text :=
  match rest with [] => [] | _ :: _ => [NL] end.

(** [cur] is the text gathered since the last match. *)
Fixpoint re_split_lines (cur : text) (lines : list text) : list text :=
  match lines with
  | [] => [cur]
  | l :: rest =>
      match marker l with
      | Some k => cur :: k :: re_split_lines (eol rest) rest
      | None => re_split_lines (cur ++ l ++ eol rest) rest
      end
  end.

Definition re_split (content : text) : list text :=
  re_split_lines [] (split_nl content).

(** [if sections[0].strip() == '': sections = sections[1:]] *)
Definition drop_blank_head (sections : list text) : list text :=
  match sections with
  | s0 :: rest => if is_empty (strip s0) then rest else sections
  | [] => []
  end.

(** [for i in range(0, len(sections) - 1, 2)]: the pairs
    [(sections[i], sections[i + 1])]. *)
Fixpoint pairs_of (sections : list text) : list (text * text) :=
  match sections with
  | a :: b :: rest => (a, b) :: pairs_of rest
  | _ => []
  end.

(** The (section_number, section_content) pairs the loop runs over. *)
Definition fragments (content : text) : list (text * text) :=
  pairs_of (drop_blank_head (re_split content)).

(** [section_content.lstrip('\n')] then [.rstrip()]. *)
Definition trim_section (section_content : text) : text :=
  rstrip (lstrip_nl section_content).

(** The body of the loop. *)
Definition emit (section_number section_content : text) : event text :=
  let section_content := trim_section section_content in
  if is_empty (strip section_content) then EmptySkipped section_number
  else Wrote section_number section_content.

Definition extract (content : text) : list (event text) :=
  map (fun p => emit (fst p) (snd p)) (fragments content).

(** The list [re.split] returns behind its first element: group, text,
    group, text, ... *)
Fixpoint interleave (frags : list (text * text)) : list text :=
  match frags with
  | [] => []
  | (k, body) :: rest => k :: body :: interleave rest
  end.

(** A marker line written back: [--- ] and the key. *)
Definition marker_line (k : text) : text := T "--- " ++ k.

(** The fragments read back into one text, each body behind its marker
    line. *)
Fixpoint reassemble (frags : list (text * text)) : text :=
  match frags with
  | [] => []
  | (k, body) :: rest => marker_line k ++ body ++ reassemble rest
  end.





End Split.

End SectionHeader.

(** ** [bca_p_extraction.py] *)

Module BcaP.

(** [extract_commentary_sections], from the decoded [content] on. *)
Definition extract_commentary_sections (content : text) : list (event text) :=
  SectionHeader.extract SectionHeader.marker_dotted content.

End BcaP.

(** ** [mua_extraction.py] *)

Module Mua.

(** [extract_mua_commentary], from the decoded [content] on. *)
Definition extract_mua_commentary (content : text) : list (event text) :=
  SectionHeader.extract SectionHeader.marker_int content.

End Mua.

(** ** [bca_root_extract.py] *)

Module BcaRoot.

(** [s] starts with a match of [\|\| (\d+\.\d+) \|\|]: the key and the text
    behind the match.  Each [\d+] is followed by a character that is no
    digit, so it can only take the whole run of digits. *)
Definition marker_at (s : text) : option (text * text) :=
  match s with
  | "|"%char :: "|"%char :: " "%char :: r =>
      let d1 := takewhile is_digit r in
      match dropwhile is_digit r with
      | "."%char :: r2 =>
          let d2 := takewhile is_digit r2 in
          match dropwhile is_digit r2 with
          | " "%char :: "|"%char :: "|"%char :: rest =>
              if negb (is_empty d1) && negb (is_empty d2)
              then Some (d1 ++ "."%char :: d2, rest) else None
          | _ => None
          end
      | _ => None
      end
  | _ => None
  end.

(** One match of [(.*?)\|\| (\d+\.\d+) \|\|] under [re.DOTALL], searched
    from the start of [s]: the lazy group grows one character at a time
    until the marker matches.  [pre] is the group so far, reversed. *)
Fixpoint find_marker (pre : text) (s : text) : option (text * text * text) :=
  match marker_at s with
  | Some (k, rest) => Some (rev pre, k, rest)
  | None =>
      match s with
      | [] => None
      | c :: s' => find_marker (c :: pre) s'
      end
  end.

(** [re.findall]: the matches left to right, each search starting where
    the previous match ended.  A match is not empty, so [fuel] as large as
    the text is never used up. *)
Fixpoint findall_fuel (fuel : nat) (s : text) : list (text * text) :=
  match fuel with
  | 0 => []
  | S fuel' =>
      match find_marker [] s with
      | None => []
      | Some (pre, k, rest) => (pre, k) :: findall_fuel fuel' rest
      end
  end.

Definition findall (content : text) : list (text * text) :=
  findall_fuel (length content) content.

(** The closing marker put back: [f" || {verse_number} ||"]. *)
Definition closing (verse_number : text) : text :=
  T " || " ++ verse_number ++ T " ||".

(** The body of [for verse_text, verse_number in matches]. *)
Definition emit (verse_text verse_number : text) : event text :=
  let verse_text := strip verse_text in
  let verse_text := lstrip_nl verse_text in
  if is_empty (strip verse_text) then EmptySkipped verse_number
  else Wrote verse_number (verse_text ++ closing verse_number).

(** [extract_verse_sections], from the decoded [content] on. *)
Definition extract_verse_sections (content : text) : list (event text) :=
  map (fun m => emit (fst m) (snd m)) (findall content).

(** The marker as it stands in the document. *)
Definition marker_text (k : text) : text := T "|| " ++ k ++ T " ||".

(** The matches with their markers, as they stand in the document. *)
Fixpoint tiles (ms : list (text * text)) : text :=
  match ms with
  | [] => []
  | (pre, k) :: ms' => pre ++ marker_text k ++ tiles ms'
  end.

End BcaRoot.

(** ** [seni_extract.py] *)

Module Seni.

(** [[line.strip()[1:].strip() for line in content.split('\n')
      if line.strip().startswith('>')]] *)
Definition verse_lines (content : text) : list text :=
  map (fun line => strip (tl (strip line)))
      (filter (fun line => startswith (T ">") (strip line))
              (split_nl content)).

(** [s] is a match of [\|\| SeNi (\d+) \|\|\s*$]: the group.  [\s*$]
    holds when nothing but white space follows. *)
Definition marker_at (s : text) : option text :=
  if startswith (T "|| SeNi ") s then
    let r := skipn 8 s in
    let ds := takewhile is_digit r in
    let r' := dropwhile is_digit r in
    if negb (is_empty ds) && startswith (T " ||") r'
       && forallb is_space (skipn 3 r')
    then Some ds else None
  else None.

(** [re.search]: the leftmost position where the pattern matches. *)
Fixpoint search (line : text) : option text :=
  match marker_at line with
  | Some k => Some k
  | None =>
      match line with
      | [] => None
      | _ :: line' => search line'
      end
  end.

(** [verses_dict[k] = v] on a dictionary kept in insertion order. *)
Fixpoint dict_set (d : list (text * text)) (k v : text) : list (text * text) :=
  match d with
  | [] => [(k, v)]
  | (k', v') :: d' =>
      if text_eqb k k' then (k, v) :: d' else (k', v') :: dict_set d' k v
  end.

(** One iteration of [for line in verse_lines], on
    [(verses_dict, current_verse)]. *)
Definition step (st : list (text * text) * list text) (line : text)
  : list (text * text) * list text :=
  let (verses_dict, current_verse) := st in
  let current_verse := current_verse ++ [line] in
  match search line with
  | Some verse_num =>
      (dict_set verses_dict verse_num (join [NL] current_verse), [])
  | None => (verses_dict, current_verse)
  end.

Definition group_verses (lines : list text) : list (text * text) * list text :=
  fold_left step lines ([], []).

(** [extract_root_verses]: one write per item of [verses_dict]. *)
Definition extract_root_verses (content : text) : list (event text) :=
  map (fun kv => Wrote (fst kv) (snd kv))
      (fst (group_verses (verse_lines content))).

(** The closing marker of verse [k] in the labelled corpus. *)
Definition closing (k : text) : text := T "|| SeNi " ++ k ++ T " ||".

(** [[line for line in section_content.split('\n')
      if not line.strip().startswith('>')]], joined again. *)
Definition remove_root_lines (section_content : text) : text :=
  join [NL]
       (filter (fun line => negb (startswith (T ">") (strip line)))
               (split_nl section_content)).

(** The body of the loop of [extract_commentary_sections]. *)
Definition emit (section_number section_content : text) : event text :=
  let section_content := remove_root_lines section_content in
  let section_content := SectionHeader.trim_section section_content in
  if is_empty (strip section_content) then EmptySkipped section_number
  else Wrote section_number section_content.

(** [extract_commentary_sections]. *)
Definition extract_commentary_sections (content : text) : list (event text) :=
  map (fun p => emit (fst p) (snd p))
      (SectionHeader.fragments SectionHeader.marker_int content).

(** An entry of [verses_dict]: lines gathered up to and with a line that
    carries the marker of the key. *)
Definition terminated (kv : text * text) : Prop :=
  exists ls l,
    snd kv = join [NL] (ls ++ [l])
    /\ search l = Some (fst kv)
    /\ exists a, l = a ++ closing (fst kv).

(** A run of consecutive lines of [lines]: lines without marker, then the
    line that carries the marker of the key; the value is the run joined
    by newlines. *)
Definition verse_run (lines : list text) (kv : text * text) : Prop :=
  exists a seg l b,
    lines = a ++ seg ++ l :: b
    /\ snd kv = join [NL] (seg ++ [l])
    /\ Forall (fun x => search x = None) seg
    /\ search l = Some (fst kv).

(** A saved unit with the [>] of a root line put back in front of each of
    its lines. *)
Definition prefixed (unit : text) : text :=
  join [NL] (map (fun l => T ">" ++ l) (split_nl unit)).

End Seni.

(** ** [medū.py] *)

Module Medu.

(** [[line[1:] for line in lines
      if line.startswith('>') and line[1:].strip()]] *)
Definition root_lines_of (lines : list text) : list text :=
  filter (fun root_line => negb (is_empty (strip root_line)))
         (map (@tl ascii) (filter (startswith (T ">")) lines)).

(** [save_root_verse]: the content written. *)
Definition save_root_verse (verse_lines : list text) (verse_number : nat)
  : event nat :=
  Wrote verse_number (strip (join [NL] verse_lines)).

(** One iteration of the loop of [extract_root_verses], on
    [(verse_counter, log)]. *)
Definition root_step (st : nat * list (event nat)) (section : text)
  : nat * list (event nat) :=
  let (verse_counter, log) := st in
  let section := strip section in
  if is_empty section then st
  else
    let lines := split_nl section in
    let root_lines := root_lines_of lines in
    if length root_lines =? 2 then
      (verse_counter + 1, log ++ [save_root_verse root_lines verse_counter])
    else if 0 <? length root_lines then
      (verse_counter + 1,
       log ++ [CountMismatch verse_counter (length root_lines);
               save_root_verse root_lines verse_counter])
    else st.

(** [extract_root_verses], from the decoded [content] on. *)
Definition extract_root_verses (content : text) : list (event nat) :=
  snd (fold_left root_step (split_dashes content) (1, [])).

(** [[line for line in lines if line and not line.startswith('>')]] *)
Definition commentary_lines_of (lines : list text) : list text :=
  filter (fun line => negb (is_empty line) && negb (startswith (T ">") line))
         lines.

(** One iteration of the loop of [extract_commentary]. *)
Definition commentary_step (st : nat * list (event nat)) (section : text)
  : nat * list (event nat) :=
  let (verse_counter, log) := st in
  let section := strip section in
  if is_empty section then st
  else
    let lines := split_nl section in
    let commentary_lines := commentary_lines_of lines in
    if is_empty_list commentary_lines then (verse_counter + 1, log)
    else
      (verse_counter + 1,
       log ++ [Wrote verse_counter (strip (join [NL] commentary_lines))]).

(** [extract_commentary], from the decoded [content] on. *)
Definition extract_commentary (content : text) : list (event nat) :=
  snd (fold_left commentary_step (split_dashes content) (1, [])).


(** What the commentary writes for one fragment. *)
Definition commentary_event_of (content : text) (e : event nat) : Prop :=
  exists section k,
    In section (split_dashes content)
    /\ strip section <> []
    /\ commentary_lines_of (split_nl (strip section)) <> []
    /\ e = Wrote k (strip (join [NL]
                      (commentary_lines_of (split_nl (strip section))))).

(** The fragment is not blank. *)
Definition nonblank (section : text) : bool := negb (is_empty (strip section)).

(** The fragment is not blank and has root lines. *)
Definition has_roots (section : text) : bool :=
  nonblank section
  && negb (is_empty_list (root_lines_of (split_nl (strip section)))).

End Medu.

(** ** [count_pairs.py]: what [main] prints with [--verbose] *)

Module CountPairsMain.
Import CountPairs.

Definition is_root_only (r : result) : bool :=
  match type r with RootOnly => true | _ => false end.

Definition is_single (r : result) : bool :=
  match type r with SinglePair => true | _ => false end.

(** [[r for r in results['results'] if r['type'] == 'root-only']] and its
    two siblings. *)
Definition root_only (rep : report) : list result :=
  filter is_root_only (results rep).
Definition single_pairs (rep : report) : list result :=
  filter is_single (results rep).
Definition multiple_pairs (rep : report) : list result :=
  filter is_multiple (results rep).

(** [r['root'].split('_')[0]]: the text before the first underscore. *)
Definition text_siglum (root : text) : text :=
  takewhile (fun c => negb (Ascii.eqb c "_"%char)) root.

(** [by_text[k]['roots'] += 1; by_text[k]['pairs'] += p] on the
    [defaultdict], kept in insertion order: a missing key starts from
    [{'roots': 0, 'pairs': 0}]. *)
Fixpoint bump (by_text : list (text * (nat * nat))) (k : text) (p : nat)
  : list (text * (nat * nat)) :=
  match by_text with
  | [] => [(k, (0 + 1, 0 + p))]
  | (k', (roots, prs)) :: rest =>
      if text_eqb k k' then (k', (roots + 1, prs + p)) :: rest
      else (k', (roots, prs)) :: bump rest k p
  end.

(** The loop [for r in results['results']]. *)
Definition rollup (rs : list result) : list (text * (nat * nat)) :=
  fold_left (fun by_text r => bump by_text (text_siglum (root r)) (pairs r))
            rs [].

(** [by_text[k]] for a key of the dictionary. *)
Fixpoint lookup (by_text : list (text * (nat * nat))) (k : text)
  : nat * nat :=
  match by_text with
  | [] => (0, 0)
  | (k', v) :: rest => if text_eqb k k' then v else lookup rest k
  end.

(** The order of Python strings: by code point, a prefix first. *)
Fixpoint text_leb (a b : text) : bool :=
  match a, b with
  | [], _ => true
  | _ :: _, [] => false
  | x :: a', y :: b' =>
      if nat_of_ascii x <? nat_of_ascii y then true
      else if nat_of_ascii y <? nat_of_ascii x then false
      else text_leb a' b'
  end.

Fixpoint insert_sorted (k : text) (l : list text) : list text :=
  match l with
  | [] => [k]
  | k' :: l' => if text_leb k k' then k :: l else k' :: insert_sorted k l'
  end.

(** [sorted(keys)]. *)
Fixpoint sorted (l : list text) : list text :=
  match l with
  | [] => []
  | k :: l' => insert_sorted k (sorted l')
  end.

(** The lines of "BREAKDOWN BY TEXT SIGLUM": siglum, root files, pairs. *)
Definition breakdown (rep : report) : list (text * (nat * nat)) :=
  let by_text := rollup (results rep) in
  map (fun k => (k, lookup by_text k)) (sorted (map fst by_text)).

(** Each counter is the number of entries of its category, and
    [total_pairs] the sum of the entries' pair counts. *)
Definition tallies_ok (st : acc) : Prop :=
  a_total_pairs st = list_sum (map pairs (a_results st))
  /\ a_root_only st = length (filter is_root_only (a_results st))
  /\ a_single st = length (filter is_single (a_results st))
  /\ a_multiple st = length (filter is_multiple (a_results st)).

(** The totals of the dictionary. *)
Definition sum_roots (d : list (text * (nat * nat))) : nat :=
  list_sum (map (fun e => fst (snd e)) d).

Definition sum_pairs (d : list (text * (nat * nat))) : nat :=
  list_sum (map (fun e => snd (snd e)) d).

End CountPairsMain.

(** ** [medū.py]: the preview and the closing messages *)

Module MeduReport.
Import Medu.

(** The loop of [preview_extraction]: the verses printed, each with the
    number in its heading and its root lines.  The loop is left once
    [verse_counter] has passed [num_verses]. *)
Fixpoint preview_loop (num_verses verse_counter : nat) (sections : list text)
  : list (nat * list text) :=
  match sections with
  | [] => []
  | section :: rest =>
      let section := strip section in
      if is_empty section then preview_loop num_verses verse_counter rest
      else
        let root_lines := root_lines_of (split_nl section) in
        if is_empty_list root_lines
        then preview_loop num_verses verse_counter rest
        else
          (verse_counter, root_lines)
            :: (if num_verses <? verse_counter + 1 then []
                else preview_loop num_verses (verse_counter + 1) rest)
  end.

(** [preview_extraction], from the decoded [content] on. *)
Definition preview_extraction (content : text) (num_verses : nat)
  : list (nat * list text) :=
  preview_loop num_verses 1 (split_dashes content).

(** The number in "Extraction complete! Found N root verses."
    ([verse_counter - 1]). *)
Definition root_verses_found (content : text) : nat :=
  fst (fold_left root_step (split_dashes content) (1, [])) - 1.

(** The number in "Commentary extraction complete! Found N commentaries."
    ([verse_counter - 1]). *)
Definition commentaries_found (content : text) : nat :=
  fst (fold_left commentary_step (split_dashes content) (1, [])) - 1.

(** What [save_root_verse] writes for a fragment. *)
Definition root_content (section : text) : text :=
  strip (join [NL] (root_lines_of (split_nl (strip section)))).

(** The units the root extraction writes from counter [c] on. *)
Fixpoint root_units (c : nat) (sections : list text) : list (nat * text) :=
  match sections with
  | [] => []
  | section :: rest =>
      if has_roots section
      then (c, root_content section) :: root_units (c + 1) rest
      else root_units c rest
  end.

(** What [extract_commentary] writes for a fragment. *)
Definition commentary_content (section : text) : text :=
  strip (join [NL] (commentary_lines_of (split_nl (strip section)))).

(** The units the commentary extraction writes from counter [c] on. *)
Fixpoint commentary_units (c : nat) (sections : list text)
  : list (nat * text) :=
  match sections with
  | [] => []
  | section :: rest =>
      if nonblank section then
        if is_empty_list (commentary_lines_of (split_nl (strip section)))
        then commentary_units (c + 1) rest
        else (c, commentary_content section) :: commentary_units (c + 1) rest
      else commentary_units c rest
  end.

(** A log in which a count warning is always followed by the write of the
    verse it is about. *)
Inductive flagged_log : list (event nat) -> Prop :=
| flagged_nil : flagged_log []
| flagged_plain k c rest :
    flagged_log rest -> flagged_log (Wrote k c :: rest)
| flagged_warned k n c rest :
    n <> 2 -> n <> 0 -> flagged_log rest ->
    flagged_log (CountMismatch k n :: Wrote k c :: rest).

End MeduReport.

(** ** [extract_ht.py]

    [extract_commentaries] is not embedded: the dictionary it returns is
    an argument of [save_to_files] here, as it is in the source. *)

Module ExtractHt.

(** [int(s)] for a string of decimal digits. *)
Definition int_of_digits (s : text) : nat :=
  fold_left (fun n c => n * 10 + (nat_of_ascii c - 48)) s 0.

(** The marker as it stands in the document. *)
Definition marker_text (k : text) : text := T "|| " ++ k ++ T " ||".

(** [s] starts with a match of [\|\| (\d+) \|\|]: the digits and the text
    behind the match. *)
Definition marker_at (s : text) : option (text * text) :=
  match s with
  | "|"%char :: "|"%char :: " "%char :: r =>
      let ds := takewhile is_digit r in
      match dropwhile is_digit r with
      | " "%char :: "|"%char :: "|"%char :: rest =>
          if negb (is_empty ds) then Some (ds, rest) else None
      | _ => None
      end
  | _ => None
  end.

(** The pattern [(.*?\|\| (\d+) \|\|)] under [re.DOTALL] tried at the
    start of [s]: the lazy [.*?] grows until the marker matches.  [pre] is
    what it holds so far, reversed. *)
Fixpoint match_here (pre : text) (s : text) : option (text * text * text) :=
  match marker_at s with
  | Some (k, rest) => Some (rev pre, k, rest)
  | None =>
      match s with
      | [] => None
      | c :: s' => match_here (c :: pre) s'
      end
  end.

(** The search for the next match: the pattern is tried at [offset], then
    one character further, and so on.  The result has the offset where
    the match starts. *)
Fixpoint search_from (offset : nat) (s : text)
  : option (nat * text * text * text) :=
  match match_here [] s with
  | Some (pre, k, rest) => Some (offset, pre, k, rest)
  | None =>
      match s with
      | [] => None
      | _ :: s' => search_from (offset + 1) s'
      end
  end.

(** One match of [finditer]: [match.start()], [match.end()],
    [match.group(1)], [match.group(2)]. *)
Record re_match := mkMatch {
  m_start : nat;
  m_end : nat;
  group1 : text;
  group2 : text
}.

(** [verse_pattern.finditer(content)] from position [pos] on, [s] being
    [content[pos:]]. *)
Fixpoint finditer_fuel (fuel : nat) (pos : nat) (s : text) : list re_match :=
  match fuel with
  | 0 => []
  | S fuel' =>
      match search_from pos s with
      | None => []
      | Some (start, pre, k, rest) =>
          let g1 := pre ++ marker_text k in
          mkMatch start (start + length g1) g1 k
            :: finditer_fuel fuel' (start + length g1) rest
      end
  end.

Definition finditer (content : text) : list re_match :=
  finditer_fuel (length content) 0 content.

(** The loop of [extract_verses], [last_end] being the end of the match
    before. *)
Fixpoint verses_loop (content : text) (last_end : nat) (ms : list re_match)
  : list (nat * text) :=
  match ms with
  | [] => []
  | m :: ms' =>
      let verse_text := strip (group1 m) in
      let verse_number := int_of_digits (group2 m) in
      (if (verse_number =? 1) && (last_end =? 0) && (0 <? m_start m) then
         let intro_text := strip (firstn (m_start m) content) in
         if is_empty intro_text then [] else [(0, intro_text)]
       else [])
        ++ (verse_number, verse_text) :: verses_loop content (m_end m) ms'
  end.

(** [extract_verses], from the text of the root file on. *)
Definition extract_verses (content : text) : list (nat * text) :=
  verses_loop content 0 (finditer content).

(** What [save_to_files] does for a verse: the two files it writes and the
    message "No commentary found for verse n". *)
Inductive ht_event : Type :=
| WroteVerse (verse_number : nat) (verse_text : text)
| WroteCommentary (verse_number : nat) (commentary : text)
| NoCommentary (verse_number : nat).

(** [commentaries[n]], when [n in commentaries]. *)
Fixpoint dict_get (commentaries : list (nat * text)) (n : nat) : option text :=
  match commentaries with
  | [] => None
  | (n', c) :: rest => if n =? n' then Some c else dict_get rest n
  end.

(** [save_to_files]. *)
Fixpoint save_to_files (verses : list (nat * text))
         (commentaries : list (nat * text)) : list ht_event :=
  match verses with
  | [] => []
  | (verse_number, verse_text) :: rest =>
      if verse_number =? 0 then save_to_files rest commentaries
      else
        WroteVerse verse_number verse_text
          :: match dict_get commentaries verse_number with
             | Some c => WroteCommentary verse_number c
             | None => NoCommentary verse_number
             end
          :: save_to_files rest commentaries
  end.

(** [main], from the text of the root file and the dictionary
    [extract_commentaries] returned on. *)
Definition main (content : text) (commentaries : list (nat * text))
  : list ht_event :=
  save_to_files (extract_verses content) commentaries.

(** A log of [save_to_files]: every verse is followed by its commentary
    or by the message that it has none. *)
Inductive paired_log (commentaries : list (nat * text))
  : list ht_event -> Prop :=
| paired_nil : paired_log commentaries []
| paired_both n t c rest :
    n <> 0 -> dict_get commentaries n = Some c ->
    paired_log commentaries rest ->
    paired_log commentaries (WroteVerse n t :: WroteCommentary n c :: rest)
| paired_alone n t rest :
    n <> 0 -> dict_get commentaries n = None ->
    paired_log commentaries rest ->
    paired_log commentaries (WroteVerse n t :: NoCommentary n :: rest).

End ExtractHt.

(** ** [bca_root_extract.py]: the alternative method *)

Module BcaRootAlt.
Import BcaRoot.

(** [re.split(r'\|\| (\d+\.\d+) \|\|', content)]: the text before each
    match and its group in turn, then the text behind the last match. *)
Fixpoint re_split_fuel (fuel : nat) (s : text) : list text :=
  match fuel with
  | 0 => [s]
  | S fuel' =>
      match find_marker [] s with
      | None => [s]
      | Some (pre, k, rest) => pre :: k :: re_split_fuel fuel' rest
      end
  end.

Definition re_split (content : text) : list text :=
  re_split_fuel (length content) content.

(** [re.match(r'\d+\.\d+$', s)] on a stripped [s]: digits, a dot, digits
    and nothing else. *)
Definition is_verse_number (s : text) : bool :=
  match dropwhile is_digit s with
  | "."%char :: d2 =>
      negb (is_empty (takewhile is_digit s)) && SectionHeader.all_digits d2
  | _ => false
  end.

(** The block that saves the verse gathered so far: run when a number is
    met and once more behind the loop. *)
Definition save (current_verse current_number : text) : list (event text) :=
  if negb (is_empty current_verse) && negb (is_empty current_number) then
    let verse_text := strip current_verse in
    if is_empty verse_text then []
    else [Wrote current_number (verse_text ++ closing current_number)]
  else [].

(** The loop variables: the index of [enumerate], [current_verse],
    [current_number], and the log. *)
Record state := mkState {
  index : nat;
  current_verse : text;
  current_number : text;
  log : list (event text)
}.

(** One iteration of [for i, part in enumerate(parts)]. *)
Definition step (st : state) (part : text) : state :=
  if is_verse_number (strip part) then
    mkState (index st + 1) [] (strip part)
            (log st ++ save (current_verse st) (current_number st))
  else
    mkState (index st + 1)
            (if 0 <? index st then part else current_verse st)
            (current_number st) (log st).

(** [extract_verses_alternative_method], from the decoded [content] on. *)
Definition extract_verses_alternative_method (content : text)
  : list (event text) :=
  let parts := SectionHeader.drop_blank_head (re_split content) in
  let st := fold_left step parts (mkState 0 [] [] []) in
  log st ++ save (current_verse st) (current_number st).

(** A verse text written under the number [k], unless it is blank. *)
Definition unit_of (t k : text) : list (event text) :=
  if is_empty (strip t) then [] else [Wrote k (strip t ++ closing k)].

(** Every number with the text that follows it: [k] with the text of the
    next match, the last number with [tail]. *)
Fixpoint follow (k : text) (ms : list (text * text)) (tail : text)
  : list (event text) :=
  match ms with
  | [] => unit_of tail k
  | (pre, k') :: ms' => unit_of pre k ++ follow k' ms' tail
  end.

Definition shifted (ms : list (text * text)) (tail : text)
  : list (event text) :=
  match ms with
  | [] => []
  | (_, k1) :: ms' => follow k1 ms' tail
  end.

(** The list [re.split] returns for matches [ms] and the text [tail]
    behind them. *)
Fixpoint parts_of (ms : list (text * text)) (tail : text) : list text :=
  match ms with
  | [] => [tail]
  | (pre, k) :: ms' => pre :: k :: parts_of ms' tail
  end.

(** A key of the shape digits, dot, digits. *)
Definition key_ok (k : text) : Prop :=
  exists d1 d2, k = d1 ++ "."%char :: d2
                /\ SectionHeader.all_digits d1 = true
                /\ SectionHeader.all_digits d2 = true.

End BcaRootAlt.

(** The line is a marker line. *)
Definition is_marker (marker : text -> option text) (l : text) : bool :=
  match marker l with Some _ => true | None => false end.

(** * Properties *)

(** ** Text *)

Lemma ascii_eqb_true (a b : ascii) : Ascii.eqb a b = true <-> a = b.
Proof. apply Ascii.eqb_eq. Qed.

Lemma text_eqb_eq (a b : text) : text_eqb a b = true <-> a = b.
Proof.
  revert b; induction a as [|x a IH]; intros [|y b]; simpl;
    try (split; [discriminate | discriminate]); try tauto.
  rewrite andb_true_iff, ascii_eqb_true, IH.
  split; [intros [-> ->]; reflexivity | intros [= -> ->]; auto].
Qed.

Lemma startswith_iff (p s : text) :
  startswith p s = true <-> exists r, s = p ++ r.
Proof.
  revert s; induction p as [|x p IH]; intros s; simpl.
  - split; [intros _; exists s; reflexivity | reflexivity].
  - destruct s as [|y s].
    + split; [discriminate | intros [r Hr]; discriminate].
    + rewrite andb_true_iff, ascii_eqb_true, IH.
      split.
      * intros [-> [r ->]]; exists r; reflexivity.
      * intros [r [= -> ->]]; split; [reflexivity | exists r; reflexivity].
Qed.

Lemma startswith_app (p r : text) : startswith p (p ++ r) = true.
Proof. apply startswith_iff; exists r; reflexivity. Qed.

Lemma endswith_iff (s suf : text) :
  endswith s suf = true <-> exists p, s = p ++ suf.
Proof.
  unfold endswith; rewrite andb_true_iff, Nat.leb_le, text_eqb_eq.
  split.
  - intros [_ H]. exists (firstn (length s - length suf) s).
    transitivity (firstn (length s - length suf) s
                  ++ skipn (length s - length suf) s).
    + symmetry; apply firstn_skipn.
    + f_equal; exact H.
  - intros [p ->]. rewrite length_app. split; [lia|].
    replace (length p + length suf - length suf) with (length p + 0) by lia.
    rewrite skipn_app, Nat.add_0_r, skipn_all.
    replace (length p - length p) with 0 by lia. reflexivity.
Qed.

Lemma endswith_app (p suf : text) : endswith (p ++ suf) suf = true.
Proof. apply endswith_iff; exists p; reflexivity. Qed.

Lemma drop_last_app (p suf : text) : drop_last (length suf) (p ++ suf) = p.
Proof.
  unfold drop_last. rewrite length_app.
  replace (length p + length suf - length suf) with (length p + 0) by lia.
  rewrite firstn_app_2, firstn_O. apply app_nil_r.
Qed.

Lemma endswith_drop_last (s suf : text) :
  endswith s suf = true -> s = drop_last (length suf) s ++ suf.
Proof.
  intros H. apply endswith_iff in H. destruct H as [p ->].
  rewrite drop_last_app. reflexivity.
Qed.

(** ** The pairing aggregator *)

Section CountPairsFacts.
Import CountPairs.

Variable files : list text.

Lemma step_results (st : acc) (r : text) :
  a_results (step files st r) = a_results st ++ [entry_of files r].
Proof.
  unfold step, entry_of.
  destruct (length (find_commentaries files (drop_last 5 r))) as [|[|n]] eqn:E;
    simpl; rewrite ?E; reflexivity.
Qed.

Lemma fold_results (roots : list text) (st : acc) :
  a_results (fold_left (step files) roots st)
  = a_results st ++ map (entry_of files) roots.
Proof.
  revert st; induction roots as [|r roots IH]; intros st; simpl.
  - symmetry; apply app_nil_r.
  - rewrite IH, step_results, <- app_assoc. reflexivity.
Qed.

Lemma multiple_pairs_sum_snoc (rs : list result) (r : result) :
  multiple_pairs_sum (rs ++ [r])
  = multiple_pairs_sum rs + (if is_multiple r then pairs r else 0).
Proof.
  unfold multiple_pairs_sum. rewrite filter_app, map_app, list_sum_app.
  simpl. destruct (is_multiple r); simpl; lia.
Qed.

Lemma step_counters (st : acc) (r : text) :
  counters_ok st -> counters_ok (step files st r).
Proof.
  unfold counters_ok, step. intros [Ht Hn].
  destruct (length (find_commentaries files (drop_last 5 r))) as [|[|n]];
    simpl; rewrite multiple_pairs_sum_snoc, length_app; simpl; lia.
Qed.

Lemma fold_counters (roots : list text) (st : acc) :
  counters_ok st -> counters_ok (fold_left (step files) roots st).
Proof.
  revert st; induction roots as [|r roots IH]; intros st H; simpl; auto.
  apply IH, step_counters, H.
Qed.

Lemma results_eq :
  results (count_pairs_root_first files)
  = map (entry_of files) (root_files files).
Proof. unfold count_pairs_root_first; simpl. apply fold_results. Qed.

End CountPairsFacts.

Import CountPairs.

Lemma length_root_results (files : list text) :
  length (results (count_pairs_root_first files))
  = total_root_files (count_pairs_root_first files).
Proof. rewrite results_eq, length_map. reflexivity. Qed.

Lemma In_find_commentaries (files : list text) (prefix f : text) :
  In f (find_commentaries files prefix)
  <-> In f files /\ startswith (prefix ++ T "_") f = true
      /\ endswith f (T "_root") = false.
Proof.
  unfold find_commentaries. rewrite filter_In, andb_true_iff, negb_true_iff.
  reflexivity.
Qed.

(** C1. For every listing, the report has one entry per identifier ending
    in [_root], in listing order; the entry's prefix is the identifier
    minus [_root]; its matches are exactly the identifiers that start with
    [prefix + '_'] and do not end in [_root]; its pair count is the number
    of matches and its category depends on that count alone.  On the
    listing x_1_root, x_1_p, x_1_q, x_2_root this gives x_1_root two
    matches (multiple-pairs), x_2_root none (root-only), two pairs in
    total. *)
Theorem pairing_matches_by_prefix :
  (forall files : list text,
     map root (results (count_pairs_root_first files))
     = filter (fun f => endswith f (T "_root")) files
     /\ Forall (fun r =>
          let prefix := drop_last 5 (root r) in
          root r = prefix ++ T "_root"
          /\ (forall f, In f (commentaries r)
                <-> In f files /\ startswith (prefix ++ T "_") f = true
                    /\ endswith f (T "_root") = false)
          /\ pairs r = length (commentaries r)
          /\ type r = category (pairs r))
        (results (count_pairs_root_first files)))
  /\ (let rep := count_pairs_root_first
                   [T "x_1_root"; T "x_1_p"; T "x_1_q"; T "x_2_root"] in
      results rep
      = [mkResult (T "x_1_root") [T "x_1_p"; T "x_1_q"] 2 MultiplePairs;
         mkResult (T "x_2_root") [] 0 RootOnly]
      /\ total_pairs rep = 2).
Proof.
  split; [| split; reflexivity].
  intros files. rewrite results_eq. split.
  - rewrite map_map. simpl. apply map_id.
  - apply Forall_forall. intros r Hr.
    apply in_map_iff in Hr. destruct Hr as [rf [<- Hrf]].
    apply filter_In in Hrf. destruct Hrf as [_ Hend].
    unfold entry_of; cbn [root commentaries pairs type].
    split; [apply (endswith_drop_last rf root_suffix Hend) |].
    split; [intros f; apply In_find_commentaries |].
    split; reflexivity.
Qed.

(** C2. For every listing, [total_pairs] is [single_pair_count] plus the
    pair counts of the multiple-pairs entries, and the three category
    counters add up to [total_root_files]. *)
Theorem report_identities (files : list text) :
  let rep := count_pairs_root_first files in
  total_pairs rep = single_pair_count rep * 1 + multiple_pairs_sum (results rep)
  /\ root_only_count rep + single_pair_count rep + multiple_pair_count rep
     = total_root_files rep.
Proof.
  assert (H : counters_ok (fold_left (step files) (root_files files)
                                     (mkAcc 0 0 0 0 []))).
  { apply fold_counters. split; reflexivity. }
  destruct H as [Ht Hn]. simpl. split.
  - rewrite Nat.mul_1_r. exact Ht.
  - rewrite Hn. apply (length_root_results files).
Qed.

Lemma In_results (files : list text) (p : text) :
  In (p ++ T "_root") files ->
  In (entry_of files (p ++ T "_root")) (results (count_pairs_root_first files)).
Proof.
  intros H. rewrite results_eq. apply in_map. apply filter_In. split; auto.
  apply endswith_app.
Qed.

Lemma startswith_trans (p q s : text) :
  startswith p q = true -> startswith q s = true -> startswith p s = true.
Proof.
  rewrite !startswith_iff. intros [r1 ->] [r2 ->].
  exists (r1 ++ r2). symmetry; apply app_assoc.
Qed.

(** C9. When the prefix of one root followed by the separator is a prefix
    of another root's prefix, every commentary of the second root is also
    listed among the commentaries of the first; so one commentary counts
    toward two different roots.  On the listing x_1_root, x_1_2_root,
    x_1_2_p the report has two pairs though the listing holds a single
    commentary identifier. *)
Theorem commentary_counted_for_two_roots :
  (forall (files : list text) (p1 p2 c : text),
     In (p1 ++ T "_root") files ->
     In (p2 ++ T "_root") files ->
     startswith (p1 ++ T "_") p2 = true ->
     In c files ->
     startswith (p2 ++ T "_") c = true ->
     endswith c (T "_root") = false ->
     exists r1 r2,
       In r1 (results (count_pairs_root_first files))
       /\ In r2 (results (count_pairs_root_first files))
       /\ root r1 = p1 ++ T "_root" /\ root r2 = p2 ++ T "_root"
       /\ root r1 <> root r2
       /\ In c (commentaries r1) /\ In c (commentaries r2))
  /\ (let files := [T "x_1_root"; T "x_1_2_root"; T "x_1_2_p"] in
      commentary_files files = [T "x_1_2_p"]
      /\ total_pairs (count_pairs_root_first files) = 2
      /\ length (commentary_files files)
         < total_pairs (count_pairs_root_first files)).
Proof.
  split.
  - intros files p1 p2 c H1 H2 H12 Hc Hp Hr.
    exists (entry_of files (p1 ++ T "_root")),
           (entry_of files (p2 ++ T "_root")).
    split; [apply In_results, H1 |].
    split; [apply In_results, H2 |].
    split; [reflexivity |]. split; [reflexivity |].
    unfold entry_of; cbn [root commentaries].
    change 5 with (length (T "_root")). rewrite !drop_last_app.
    split.
    + intros E. apply app_inv_tail in E. subst p2.
      apply startswith_iff in H12. destruct H12 as [r Hr'].
      apply (f_equal (@length ascii)) in Hr'.
      rewrite !length_app in Hr'. simpl in Hr'. lia.
    + split; apply In_find_commentaries; repeat split; auto.
      apply (startswith_trans _ (p2 ++ T "_")); auto.
      apply startswith_iff in H12. destruct H12 as [r ->].
      apply startswith_iff. exists (r ++ T "_").
      rewrite <- !app_assoc. reflexivity.
  - cbv zeta. split; [reflexivity |]. split; [reflexivity |].
    vm_compute. lia.
Qed.

Lemma commentary_counted_for_two_roots_witness :
  let files := [T "x_1_root"; T "x_1_2_root"; T "x_1_2_p"] in
  (startswith (T "x_1" ++ T "_") (T "x_1_2") = true
   /\ startswith (T "x_1_2" ++ T "_") (T "x_1_2_p") = true
   /\ endswith (T "x_1_2_p") (T "_root") = false)
  /\ exists r1 r2,
       In r1 (results (count_pairs_root_first files))
       /\ In r2 (results (count_pairs_root_first files))
       /\ root r1 = T "x_1_root" /\ root r2 = T "x_1_2_root"
       /\ root r1 <> root r2
       /\ In (T "x_1_2_p") (commentaries r1)
       /\ In (T "x_1_2_p") (commentaries r2).
Proof.
  split; [repeat split; reflexivity|].
  apply (proj1 commentary_counted_for_two_roots
           [T "x_1_root"; T "x_1_2_root"; T "x_1_2_p"]
           (T "x_1") (T "x_1_2") (T "x_1_2_p")).
  - simpl; auto.
  - simpl; auto.
  - reflexivity.
  - simpl; auto.
  - reflexivity.
  - reflexivity.
Defined.

(** ** More on text: trimming, joining, splitting *)

Lemma takewhile_dropwhile (p : ascii -> bool) (s : text) :
  takewhile p s ++ dropwhile p s = s.
Proof.
  induction s as [|c s IH]; simpl; [reflexivity|].
  destruct (p c); simpl; [rewrite IH|]; reflexivity.
Qed.

Lemma takewhile_all (p : ascii -> bool) (s : text) :
  forallb p (takewhile p s) = true.
Proof.
  induction s as [|c s IH]; simpl; [reflexivity|].
  destruct (p c) eqn:E; simpl; [rewrite E, IH|]; reflexivity.
Qed.

Lemma dropwhile_head (p : ascii -> bool) (s : text) (c : ascii) (r : text) :
  dropwhile p s = c :: r -> p c = false.
Proof.
  induction s as [|x s IH]; simpl; [discriminate|].
  destruct (p x) eqn:E; [exact IH|]. intros [= <- _]. exact E.
Qed.

Lemma dropwhile_all (p : ascii -> bool) (s : text) :
  forallb p s = true -> dropwhile p s = [].
Proof.
  induction s as [|x s IH]; simpl; [reflexivity|].
  destruct (p x); simpl; [exact IH | discriminate].
Qed.


Lemma forallb_rev (p : ascii -> bool) (s : text) :
  forallb p (rev s) = forallb p s.
Proof.
  induction s as [|c s IH]; simpl; [reflexivity|].
  rewrite forallb_app, IH. simpl. rewrite andb_true_r. apply andb_comm.
Qed.

(** [lstrip], [rstrip] and [strip] cut white space off the ends and
    nothing else. *)
Lemma lstrip_split (s : text) :
  s = takewhile is_space s ++ lstrip s.
Proof. symmetry; apply takewhile_dropwhile. Qed.

Lemma rstrip_split (s : text) :
  s = rstrip s ++ rev (takewhile is_space (rev s)).
Proof.
  unfold rstrip. rewrite <- rev_app_distr, takewhile_dropwhile.
  symmetry; apply rev_involutive.
Qed.

Lemma strip_split (s : text) :
  exists pre post,
    s = pre ++ strip s ++ post
    /\ forallb is_space pre = true /\ forallb is_space post = true.
Proof.
  exists (takewhile is_space s),
         (rev (takewhile is_space (rev (lstrip s)))).
  split; [| split].
  - unfold strip. rewrite <- rstrip_split. apply lstrip_split.
  - apply takewhile_all.
  - rewrite forallb_rev. apply takewhile_all.
Qed.

Lemma lstrip_nl_split (s : text) :
  s = takewhile (Ascii.eqb NL) s ++ lstrip_nl s.
Proof. symmetry; apply takewhile_dropwhile. Qed.

(** The stripped text does not end in white space. *)
Lemma rstrip_no_trailing (s a ws : text) :
  rstrip s = a ++ ws -> forallb is_space ws = true -> ws = [].
Proof.
  unfold rstrip. intros H Hws.
  apply (f_equal (@rev ascii)) in H.
  rewrite rev_involutive, rev_app_distr in H.
  destruct (rev ws) as [|c r] eqn:E.
  - apply (f_equal (@rev ascii)) in E. rewrite rev_involutive in E. exact E.
  - simpl in H. apply dropwhile_head in H.
    assert (Hc : forallb is_space (rev ws) = true)
      by (rewrite forallb_rev; exact Hws).
    rewrite E in Hc. simpl in Hc. rewrite H in Hc. discriminate.
Qed.

Lemma strip_no_trailing (s a ws : text) :
  strip s = a ++ ws -> forallb is_space ws = true -> ws = [].
Proof. apply rstrip_no_trailing. Qed.

Lemma is_empty_true (s : text) : is_empty s = true <-> s = [].
Proof. destruct s; simpl; split; congruence. Qed.

Lemma is_empty_false (s : text) : is_empty s = false <-> s <> [].
Proof. destruct s; simpl; split; congruence. Qed.


Lemma join_cons (sep p : text) (rest : list text) :
  rest <> [] -> join sep (p :: rest) = p ++ sep ++ join sep rest.
Proof. destruct rest; [congruence | reflexivity]. Qed.

Lemma join_snoc (sep : text) (ls : list text) (x : text) :
  ls <> [] -> join sep (ls ++ [x]) = join sep ls ++ sep ++ x.
Proof.
  induction ls as [|p ls IH]; [congruence|]. intros _.
  destruct ls as [|q ls].
  - reflexivity.
  - change ((p :: q :: ls) ++ [x]) with (p :: ((q :: ls) ++ [x])).
    rewrite join_cons by (simpl; discriminate).
    rewrite IH by discriminate.
    rewrite (join_cons sep p (rest := q :: ls)) by discriminate.
    rewrite <- !app_assoc. reflexivity.
Qed.

(** The joined text ends with its last part. *)
Lemma join_ends (sep : text) (ls : list text) (x : text) :
  exists a, join sep (ls ++ [x]) = a ++ x.
Proof.
  destruct ls as [|p ls].
  - exists []. reflexivity.
  - exists (join sep (p :: ls) ++ sep).
    rewrite join_snoc by discriminate. rewrite <- app_assoc. reflexivity.
Qed.

Lemma split_nl_aux_nonempty (cur s : text) : split_nl_aux cur s <> [].
Proof.
  revert cur; induction s as [|c s IH]; intros cur; simpl; [discriminate|].
  destruct (Ascii.eqb c NL); [discriminate | apply IH].
Qed.

Lemma split_nl_aux_join (cur s : text) :
  join [NL] (split_nl_aux cur s) = rev cur ++ s.
Proof.
  revert cur; induction s as [|c s IH]; intros cur; simpl.
  - symmetry; apply app_nil_r.
  - destruct (Ascii.eqb c NL) eqn:E.
    + apply ascii_eqb_true in E. subst c.
      rewrite join_cons.
      * rewrite IH. reflexivity.
      * apply split_nl_aux_nonempty.
    + rewrite IH. simpl. rewrite <- app_assoc. reflexivity.
Qed.

(** [split('\n')] loses nothing: joining the lines gives the text back. *)
Lemma split_nl_join (s : text) : join [NL] (split_nl s) = s.
Proof. apply split_nl_aux_join. Qed.

Lemma split_nl_aux_app (cur a b : text) :
  split_nl_aux cur (a ++ NL :: b) = split_nl_aux cur a ++ split_nl b.
Proof.
  revert cur; induction a as [|c a IH]; intros cur; simpl.
  - reflexivity.
  - destruct (Ascii.eqb c NL); [rewrite IH; reflexivity | apply IH].
Qed.

(** The lines of two texts put together with a newline. *)
Lemma split_nl_app (a b : text) :
  split_nl (a ++ NL :: b) = split_nl a ++ split_nl b.
Proof. apply split_nl_aux_app. Qed.


(** ** The section-header dialect *)

Section SectionHeaderFacts.
Import SectionHeader.

Lemma marker_int_sound (l k : text) :
  marker_int l = Some k -> l = marker_line k.
Proof.
  unfold marker_int, marker_line.
  destruct l as [|[[] [] [] [] [] [] [] []] l]; try discriminate.
  destruct l as [|[[] [] [] [] [] [] [] []] l]; try discriminate.
  destruct l as [|[[] [] [] [] [] [] [] []] l]; try discriminate.
  destruct l as [|[[] [] [] [] [] [] [] []] l]; try discriminate.
  destruct (all_digits l); [|discriminate]. intros [= ->]. reflexivity.
Qed.

Lemma marker_dotted_sound (l k : text) :
  marker_dotted l = Some k -> l = marker_line k.
Proof.
  unfold marker_dotted, marker_line.
  destruct l as [|[[] [] [] [] [] [] [] []] l]; try discriminate.
  destruct l as [|[[] [] [] [] [] [] [] []] l]; try discriminate.
  destruct l as [|[[] [] [] [] [] [] [] []] l]; try discriminate.
  destruct l as [|[[] [] [] [] [] [] [] []] l]; try discriminate.
  destruct (dropwhile is_digit l) as [|[[] [] [] [] [] [] [] []] d2];
    try discriminate.
  destruct (_ && _); [|discriminate]. intros [= ->]. reflexivity.
Qed.

Variable marker : text -> option text.
Hypothesis marker_sound : forall l k, marker l = Some k -> l = marker_line k.

Lemma join_eol (l : text) (rest : list text) :
  join [NL] (l :: rest) = l ++ eol rest ++ join [NL] rest.
Proof.
  destruct rest as [|q rest]; simpl.
  - rewrite app_nil_r. reflexivity.
  - reflexivity.
Qed.

(** [re.split] returns the text before the first marker and then marker
    keys and bodies in turn; written back behind their marker lines, the
    pieces give the text again. *)
Lemma re_split_lines_shape (lines : list text) (cur : text) :
  exists s0 frags,
    re_split_lines marker cur lines = s0 :: interleave frags
    /\ cur ++ join [NL] lines = s0 ++ reassemble frags.
Proof.
  revert cur; induction lines as [|l rest IH]; intros cur.
  - exists cur, []. split; reflexivity.
  - simpl re_split_lines. rewrite join_eol.
    destruct (marker l) as [k|] eqn:E.
    + destruct (IH (eol rest)) as [s1 [frags [Hs Hj]]].
      exists cur, ((k, s1) :: frags). split.
      * rewrite Hs. reflexivity.
      * simpl. rewrite Hj, (marker_sound E). reflexivity.
    + destruct (IH (cur ++ l ++ eol rest)) as [s0 [frags [Hs Hj]]].
      exists s0, frags. split; [exact Hs|].
      rewrite <- Hj, <- !app_assoc. reflexivity.
Qed.

Lemma re_split_shape (content : text) :
  exists s0 frags,
    re_split marker content = s0 :: interleave frags
    /\ content = s0 ++ reassemble frags.
Proof.
  destruct (re_split_lines_shape (split_nl content) []) as [s0 [frags [Hs Hj]]].
  exists s0, frags. split; [exact Hs|].
  rewrite <- Hj. simpl. symmetry; apply split_nl_join.
Qed.

Lemma pairs_of_interleave (frags : list (text * text)) :
  pairs_of (interleave frags) = frags.
Proof.
  induction frags as [|[k b] frags IH]; simpl; [|rewrite IH]; reflexivity.
Qed.

(** When nothing but white space stands before the first marker, the loop
    runs over the (key, body) pairs of the document, and these written
    back behind their marker lines are the document from the first marker
    on. *)
Lemma blank_head_fragments (content : text) :
  let s0 := hd [] (re_split marker content) in
  is_empty (strip s0) = true ->
  content = s0 ++ reassemble (fragments marker content).
Proof.
  destruct (re_split_shape content) as [s0 [frags [Hs Hc]]].
  cbv zeta. rewrite Hs. simpl hd. intros Hb.
  unfold fragments, drop_blank_head. rewrite Hs, Hb.
  rewrite pairs_of_interleave. exact Hc.
Qed.

(** When the text before the first marker is not blank it stays in
    front of the list, and the loop pairs it with the first key: every
    pair is (text, key) instead of (key, text). *)
Lemma nonblank_head_fragments (content s0 k1 : text) (rest : list text) :
  re_split marker content = s0 :: k1 :: rest ->
  is_empty (strip s0) = false ->
  fragments marker content = (s0, k1) :: pairs_of rest.
Proof.
  intros Hs Hb. unfold fragments, drop_blank_head. rewrite Hs, Hb.
  reflexivity.
Qed.

End SectionHeaderFacts.

(** With nothing but white space before the first marker, the units of
    [bca_p_extraction.py] and of [mua_extraction.py], each behind its
    marker line, are the document from the first marker on. *)
Lemma bca_p_rebuilds_document (content : text) :
  let s0 := hd [] (SectionHeader.re_split SectionHeader.marker_dotted content) in
  is_empty (strip s0) = true ->
  content
  = s0 ++ SectionHeader.reassemble
            (SectionHeader.fragments SectionHeader.marker_dotted content).
Proof. apply blank_head_fragments. apply marker_dotted_sound. Qed.

Lemma mua_rebuilds_document (content : text) :
  let s0 := hd [] (SectionHeader.re_split SectionHeader.marker_int content) in
  is_empty (strip s0) = true ->
  content
  = s0 ++ SectionHeader.reassemble
            (SectionHeader.fragments SectionHeader.marker_int content).
Proof. apply blank_head_fragments. apply marker_int_sound. Qed.

(** C3. A document with text before its first marker: the text is not
    dropped.  [Intro], [--- 1.1], [Alpha] under [bca_p_extraction.py]
    writes one unit whose key is the intro line and whose content is the
    marker's number, and never writes [Alpha]; the same happens under
    [mua_extraction.py].  The units no longer rebuild the document from
    the first marker on. *)
Theorem intro_text_shifts_the_pairs :
  let doc1 := join [NL] [T "Intro"; T "--- 1.1"; T "Alpha"; T ""] in
  let doc2 := join [NL] [T "Intro"; T "--- 1"; T "Alpha"; T ""] in
  BcaP.extract_commentary_sections doc1 = [Wrote (T "Intro" ++ [NL]) (T "1.1")]
  /\ SectionHeader.fragments SectionHeader.marker_dotted doc1
     = [(T "Intro" ++ [NL], T "1.1")]
  /\ Mua.extract_mua_commentary doc2 = [Wrote (T "Intro" ++ [NL]) (T "1")]
  /\ SectionHeader.reassemble
       (SectionHeader.fragments SectionHeader.marker_dotted doc1)
     <> join [NL] [T "--- 1.1"; T "Alpha"; T ""].
Proof.
  cbv zeta. repeat split; try reflexivity.
  vm_compute. discriminate.
Qed.

(** ** The line-prefix dialect *)

Section MeduFacts.
Import Medu.

Lemma commentary_lines_unclassified (lines : list text) :
  Forall (fun l => l <> [] /\ startswith (T ">") l = false)
         (commentary_lines_of lines).
Proof.
  apply Forall_forall. intros l Hl.
  apply filter_In in Hl. destruct Hl as [_ Hl].
  apply andb_true_iff in Hl. destruct Hl as [H1 H2].
  apply negb_true_iff in H1, H2. split; [apply is_empty_false, H1 | exact H2].
Qed.

(** A classified line is left out wherever it stands among the lines. *)
Lemma commentary_lines_skip (ls1 ls2 : list text) (x : text) :
  commentary_lines_of (ls1 ++ (T ">" ++ x) :: ls2)
  = commentary_lines_of ls1 ++ commentary_lines_of ls2.
Proof.
  unfold commentary_lines_of. rewrite filter_app. reflexivity.
Qed.

(** Every event a step adds satisfies [P] when the log did. *)
Lemma fold_log (step : nat * list (event nat) -> text -> nat * list (event nat))
      (P : event nat -> Prop) (secs : list text) :
  (forall st sec, In sec secs ->
     Forall P (snd st) -> Forall P (snd (step st sec))) ->
  forall st, Forall P (snd st) -> Forall P (snd (fold_left step secs st)).
Proof.
  induction secs as [|sec secs IH]; intros Hstep st Hst; simpl; [exact Hst|].
  apply IH.
  - intros st' sec' Hin. apply Hstep. right; exact Hin.
  - apply Hstep; [left; reflexivity | exact Hst].
Qed.

Lemma extract_commentary_events (content : text) :
  Forall (commentary_event_of content) (extract_commentary content).
Proof.
  unfold extract_commentary.
  apply (fold_log commentary_step); [| constructor].
  intros [n log] sec Hin Hlog. unfold commentary_step. simpl snd in Hlog.
  destruct (is_empty (strip sec)) eqn:Eb; [exact Hlog|].
  destruct (commentary_lines_of (split_nl (strip sec))) as [|c cl] eqn:Ec;
    simpl; [exact Hlog|].
  apply Forall_app. split; [exact Hlog|]. constructor; [|constructor].
  exists sec, n. rewrite Ec.
  split; [exact Hin|]. split; [apply is_empty_false, Eb|].
  split; [discriminate | reflexivity].
Qed.


End MeduFacts.

(** ** The keys of the line-prefix dialect *)

Section MeduKeys.
Import Medu.

Lemma root_step_counter (st : nat * list (event nat)) (sec : text) :
  fst (root_step st sec) = fst st + (if has_roots sec then 1 else 0)
  /\ exists more, snd (root_step st sec) = snd st ++ more.
Proof.
  destruct st as [n log]. unfold root_step, has_roots, nonblank.
  destruct (is_empty (strip sec)); simpl.
  - split; [lia | exists []; symmetry; apply app_nil_r].
  - destruct (root_lines_of (split_nl (strip sec))) as [|a [|b [|c l]]];
      simpl; split; try lia; eexists; try reflexivity.
    symmetry; apply app_nil_r.
Qed.

Lemma commentary_step_counter (st : nat * list (event nat)) (sec : text) :
  fst (commentary_step st sec) = fst st + (if nonblank sec then 1 else 0)
  /\ exists more, snd (commentary_step st sec) = snd st ++ more.
Proof.
  destruct st as [n log]. unfold commentary_step, nonblank.
  destruct (is_empty (strip sec)); simpl.
  - split; [lia | exists []; symmetry; apply app_nil_r].
  - destruct (commentary_lines_of (split_nl (strip sec))); simpl;
      split; try lia; eexists; try reflexivity.
    symmetry; apply app_nil_r.
Qed.

(** A loop whose steps add to the counter what [weight] says and only
    append to the log. *)
Lemma fold_counter
      (step : nat * list (event nat) -> text -> nat * list (event nat))
      (weight : text -> bool) :
  (forall st sec,
     fst (step st sec) = fst st + (if weight sec then 1 else 0)
     /\ exists more, snd (step st sec) = snd st ++ more) ->
  forall secs st,
    fst (fold_left step secs st) = fst st + length (filter weight secs)
    /\ exists more, snd (fold_left step secs st) = snd st ++ more.
Proof.
  intros Hstep. induction secs as [|sec secs IH]; intros st; simpl.
  - split; [lia | exists []; symmetry; apply app_nil_r].
  - destruct (IH (step st sec)) as [Hc [more Hl]].
    destruct (Hstep st sec) as [Hc1 [more1 Hl1]].
    split.
    + rewrite Hc, Hc1. destruct (weight sec); simpl; lia.
    + exists (more1 ++ more). rewrite Hl, Hl1, <- app_assoc. reflexivity.
Qed.

(** The verse of a fragment is written under one more than the number of
    fragments with root lines before it; its commentary under one more
    than the number of non-blank fragments before it. *)
Lemma fragment_keys (secs1 secs2 : list text) (sec : text) :
  has_roots sec = true ->
  commentary_lines_of (split_nl (strip sec)) <> [] ->
  In (Wrote (1 + length (filter has_roots secs1))
            (strip (join [NL] (root_lines_of (split_nl (strip sec))))))
     (snd (fold_left root_step (secs1 ++ sec :: secs2) (1, [])))
  /\ In (Wrote (1 + length (filter nonblank secs1))
               (strip (join [NL] (commentary_lines_of (split_nl (strip sec))))))
        (snd (fold_left commentary_step (secs1 ++ sec :: secs2) (1, []))).
Proof.
  intros Hr Hc. rewrite !fold_left_app. simpl fold_left. split.
  - destruct (fold_counter root_step has_roots root_step_counter
                           secs1 (1, [])) as [Hn _].
    destruct (fold_left root_step secs1 (1, [])) as [n log]. simpl in Hn.
    destruct (fold_counter root_step has_roots root_step_counter
                           secs2 (root_step (n, log) sec)) as [_ [more ->]].
    apply in_or_app. left. subst n.
    unfold has_roots, nonblank in Hr. apply andb_true_iff in Hr.
    destruct Hr as [Hb Hl]. apply negb_true_iff in Hb, Hl.
    unfold root_step. rewrite Hb.
    destruct (root_lines_of (split_nl (strip sec))) as [|a [|b [|c l]]];
      [discriminate | | |]; simpl; apply in_or_app; right;
      unfold save_root_verse; simpl; auto.
  - destruct (fold_counter commentary_step nonblank commentary_step_counter
                           secs1 (1, [])) as [Hn _].
    destruct (fold_left commentary_step secs1 (1, [])) as [n log].
    simpl in Hn.
    destruct (fold_counter commentary_step nonblank commentary_step_counter
                           secs2 (commentary_step (n, log) sec))
      as [_ [more ->]].
    apply in_or_app. left. subst n.
    unfold has_roots in Hr. apply andb_true_iff in Hr.
    destruct Hr as [Hb _]. unfold nonblank in Hb. apply negb_true_iff in Hb.
    unfold commentary_step. rewrite Hb.
    destruct (commentary_lines_of (split_nl (strip sec))) as [|a l];
      [congruence|]. simpl. apply in_or_app; right.
    simpl; auto.
Qed.

End MeduKeys.

(** C5. A fragment without root lines in front of a verse: [intro], [---],
    [>a], [>b], [note].  The root extraction numbers the verse of the
    second fragment 1, the commentary extraction numbers the commentary of
    the same fragment 2 (and gives 1 to the first fragment): the two
    sub-fragments of one fragment get different keys. *)
Theorem root_and_commentary_keys_differ :
  let doc := join [NL] [T "intro"; T "---"; T ">a"; T ">b"; T "note"] in
  Medu.extract_root_verses doc = [Wrote 1 (join [NL] [T "a"; T "b"])]
  /\ Medu.extract_commentary doc = [Wrote 1 (T "intro"); Wrote 2 (T "note")].
Proof. split; reflexivity. Qed.

(** C6. A fragment with the classified lines [>line1], [>line2] and the
    line [note], in any of its three arrangements, gives the root unit
    [line1\nline2] and the commentary unit [note].  In general the
    commentary of a fragment is built from the lines that are not empty
    and do not start with [>], and a classified line is left out wherever
    it stands among the others. *)
Theorem line_prefix_fragment_units :
  Forall (fun frag =>
            Medu.extract_root_verses (join [NL] frag)
            = [Wrote 1 (join [NL] [T "line1"; T "line2"])]
            /\ Medu.extract_commentary (join [NL] frag) = [Wrote 1 (T "note")])
         [[T ">line1"; T ">line2"; T "note"];
          [T ">line1"; T "note"; T ">line2"];
          [T "note"; T ">line1"; T ">line2"]]
  /\ (forall content : text,
        Forall (fun e =>
                  exists section k,
                    In section (split_dashes content)
                    /\ e = Wrote k (strip (join [NL]
                             (Medu.commentary_lines_of
                                (split_nl (strip section))))))
               (Medu.extract_commentary content))
  /\ (forall lines : list text,
        Forall (fun l => startswith (T ">") l = false)
               (Medu.commentary_lines_of lines))
  /\ (forall (ls1 ls2 : list text) (x : text),
        Medu.commentary_lines_of (ls1 ++ (T ">" ++ x) :: ls2)
        = Medu.commentary_lines_of ls1 ++ Medu.commentary_lines_of ls2).
Proof.
  split; [repeat constructor |].
  split; [| split].
  - intros content.
    eapply Forall_impl; [| apply extract_commentary_events].
    intros e [section [k [Hin [_ [_ He]]]]]. exists section, k. auto.
  - intros lines.
    eapply Forall_impl; [| apply commentary_lines_unclassified].
    intros l [_ H]; exact H.
  - apply commentary_lines_skip.
Qed.

(** ** Event logs *)

Lemma In_written {K : Type} (log : list (event K)) (k : K) (c : text) :
  In (k, c) (written log) <-> In (Wrote k c) log.
Proof.
  induction log as [|e log IH]; simpl; [tauto|].
  destruct e as [k' c' | k' | k' n]; simpl; rewrite IH.
  - split; (intros [H|H]; [left; congruence | right; exact H]).
  - split; [auto | intros [H|H]; [discriminate | exact H]].
  - split; [auto | intros [H|H]; [discriminate | exact H]].
Qed.

Lemma In_written_map {A K : Type} (f : A -> event K) (l : list A)
      (k : K) (c : text) :
  In (k, c) (written (map f l)) <-> exists x, In x l /\ f x = Wrote k c.
Proof. rewrite In_written, in_map_iff. firstorder. Qed.

(** ** The verse-end dialect: [bca_root_extract.py] *)

Section BcaRootFacts.
Import BcaRoot.

Lemma marker_at_sound (s k rest : text) :
  marker_at s = Some (k, rest) -> s = marker_text k ++ rest.
Proof.
  unfold marker_at, marker_text.
  destruct s as [|[[] [] [] [] [] [] [] []] s]; try discriminate.
  destruct s as [|[[] [] [] [] [] [] [] []] s]; try discriminate.
  destruct s as [|[[] [] [] [] [] [] [] []] s]; try discriminate.
  destruct (dropwhile is_digit s) as [|[[] [] [] [] [] [] [] []] r2] eqn:E1;
    try discriminate.
  destruct (dropwhile is_digit r2) as [|[[] [] [] [] [] [] [] []] r3] eqn:E2;
    try discriminate.
  destruct r3 as [|[[] [] [] [] [] [] [] []] r3]; try discriminate.
  destruct r3 as [|[[] [] [] [] [] [] [] []] r3]; try discriminate.
  destruct (_ && _); [|discriminate]. intros [= <- <-].
  rewrite <- (takewhile_dropwhile is_digit s) at 1. rewrite E1.
  rewrite <- (takewhile_dropwhile is_digit r2) at 1. rewrite E2.
  simpl. rewrite <- !app_assoc. reflexivity.
Qed.

Lemma find_marker_cons (pre : text) (c : ascii) (s : text) :
  find_marker pre (c :: s)
  = match marker_at (c :: s) with
    | Some (k, rest) => Some (rev pre, k, rest)
    | None => find_marker (c :: pre) s
    end.
Proof. reflexivity. Qed.

Lemma find_marker_sound (s pre p k rest : text) :
  find_marker pre s = Some (p, k, rest) ->
  rev pre ++ s = p ++ marker_text k ++ rest.
Proof.
  revert pre; induction s as [|c s IH]; intros pre.
  - simpl. discriminate.
  - rewrite find_marker_cons.
    destruct (marker_at (c :: s)) as [[k' r']|] eqn:E.
    + intros [= <- <- <-]. rewrite (marker_at_sound _ E). reflexivity.
    + intros H. apply IH in H. simpl in H. rewrite <- app_assoc in H.
      exact H.
Qed.

Lemma marker_text_length (k : text) : length (marker_text k) = 6 + length k.
Proof. unfold marker_text. rewrite !length_app. simpl. lia. Qed.

Lemma find_marker_shorter (s p k rest : text) :
  find_marker [] s = Some (p, k, rest) -> length rest < length s.
Proof.
  intros H. apply find_marker_sound in H.
  change (rev [] ++ s) with s in H. subst s.
  rewrite !length_app, marker_text_length. lia.
Qed.

(** Fuel beyond the length of the text changes nothing. *)
Lemma findall_fuel_enough (n m : nat) :
  forall s, length s <= n -> length s <= m ->
            findall_fuel n s = findall_fuel m s.
Proof.
  revert m; induction n as [|n IH]; intros m s Hn Hm.
  - destruct s; [|simpl in Hn; lia].
    destruct m; reflexivity.
  - destruct m as [|m].
    + destruct s; [reflexivity | simpl in Hm; lia].
    + simpl. destruct (find_marker [] s) as [[[p k] rest]|] eqn:E;
        [|reflexivity].
      apply find_marker_shorter in E. f_equal. apply IH; lia.
Qed.

(** [findall] cuts the document into matches without a gap, and stops
    only when no marker is left. *)
Lemma findall_fuel_tiles (n : nat) :
  forall s, length s <= n ->
            exists tail, s = tiles (findall_fuel n s) ++ tail
                         /\ find_marker [] tail = None.
Proof.
  induction n as [|n IH]; intros s Hn.
  - destruct s; [|simpl in Hn; lia]. exists []. split; reflexivity.
  - simpl. destruct (find_marker [] s) as [[[p k] rest]|] eqn:E.
    + pose proof (find_marker_shorter _ E) as Hlt.
      destruct (IH rest) as [tail [Ht Hnone]]; [lia|].
      exists tail. split; [|exact Hnone].
      apply find_marker_sound in E. change (rev [] ++ s) with s in E.
      rewrite E. cbn [tiles]. rewrite <- !app_assoc, <- Ht. reflexivity.
    + exists s. split; [reflexivity | exact E].
Qed.

Lemma findall_tiles (content : text) :
  exists tail, content = tiles (findall content) ++ tail
               /\ find_marker [] tail = None.
Proof. apply findall_fuel_tiles. apply Nat.le_refl. Qed.

Lemma bca_root_written (content k c : text) :
  In (k, c) (written (extract_verse_sections content)) ->
  exists pre,
    In (pre, k) (findall content)
    /\ c = lstrip_nl (strip pre) ++ closing k
    /\ strip (lstrip_nl (strip pre)) <> [].
Proof.
  unfold extract_verse_sections. rewrite In_written_map.
  intros [[pre k'] [Hin He]]. unfold emit in He. simpl in He.
  destruct (is_empty (strip (lstrip_nl (strip pre)))) eqn:Eb;
    [discriminate|].
  injection He as -> <-. exists pre.
  split; [exact Hin|]. split; [reflexivity|].
  apply is_empty_false, Eb.
Qed.

End BcaRootFacts.

(** ** The verse-end dialect: [seni_extract.py] *)

Section SeniFacts.
Import Seni.

Lemma skipn_startswith (p s : text) :
  startswith p s = true -> s = p ++ skipn (length p) s.
Proof.
  intros H. apply startswith_iff in H. destruct H as [r ->].
  rewrite skipn_app, skipn_all, Nat.sub_diag. reflexivity.
Qed.

Lemma marker_at_sound_seni (s k : text) :
  marker_at s = Some k ->
  exists ws, s = closing k ++ ws /\ forallb is_space ws = true.
Proof.
  unfold marker_at, closing.
  destruct (startswith (T "|| SeNi ") s) eqn:E1; [|discriminate].
  apply skipn_startswith in E1. change (length (T "|| SeNi ")) with 8 in E1.
  cbv zeta. remember (skipn 8 s) as r eqn:Er.
  pose proof (takewhile_dropwhile is_digit r) as Hr.
  remember (dropwhile is_digit r) as r' eqn:Er'.
  remember (takewhile is_digit r) as ds eqn:Eds.
  destruct (negb (is_empty ds)) ; [|discriminate].
  destruct (startswith (T " ||") r') eqn:E3; [|discriminate].
  destruct (forallb is_space (skipn 3 r')) eqn:E4; [|discriminate].
  intros H. injection H as <-.
  apply skipn_startswith in E3. change (length (T " ||")) with 3 in E3.
  exists (skipn 3 r'). split; [|exact E4].
  rewrite E1, <- Hr, E3 at 1. rewrite <- !app_assoc. reflexivity.
Qed.

Lemma search_sound (line k : text) :
  search line = Some k ->
  exists a ws, line = a ++ closing k ++ ws /\ forallb is_space ws = true.
Proof.
  induction line as [|c line IH].
  - simpl. discriminate.
  - change (search (c :: line))
      with (match marker_at (c :: line) with
            | Some k => Some k
            | None => search line
            end).
    destruct (marker_at (c :: line)) as [k'|] eqn:E.
    + intros [= ->]. apply marker_at_sound_seni in E.
      destruct E as [ws [-> Hws]]. exists [], ws. split; [reflexivity|exact Hws].
    + intros H. destruct (IH H) as [a [ws [-> Hws]]].
      exists (c :: a), ws. split; [reflexivity | exact Hws].
Qed.

(** A stripped line with a marker ends in the marker. *)
Lemma stripped_line_ends_in_marker (x k : text) :
  search (strip x) = Some k -> exists a, strip x = a ++ closing k.
Proof.
  intros H. destruct (search_sound _ H) as [a [ws [E Hws]]].
  exists a. rewrite app_assoc in E.
  pose proof (strip_no_trailing _ _ _ E Hws) as ->.
  rewrite app_nil_r in E. exact E.
Qed.

Lemma verse_lines_stripped (content : text) :
  Forall (fun l => exists x, l = strip x) (verse_lines content).
Proof.
  unfold verse_lines. apply Forall_forall. intros l Hl.
  apply in_map_iff in Hl. destruct Hl as [y [<- _]].
  exists (tl (strip y)). reflexivity.
Qed.

Lemma verse_lines_app (a b : text) :
  verse_lines (a ++ NL :: b) = verse_lines a ++ verse_lines b.
Proof.
  unfold verse_lines. rewrite split_nl_app, filter_app, map_app. reflexivity.
Qed.

Lemma dict_set_Forall (P : text * text -> Prop) (d : list (text * text))
      (k v : text) :
  Forall P d -> P (k, v) -> Forall P (dict_set d k v).
Proof.
  intros Hd Hkv. induction d as [|[k' v'] d IH]; simpl.
  - constructor; [exact Hkv | constructor].
  - inversion Hd; subst.
    destruct (text_eqb k k'); constructor; auto.
Qed.

Lemma step_terminated (st : list (text * text) * list text) (line : text) :
  (exists x, line = strip x) ->
  Forall terminated (fst st) -> Forall terminated (fst (step st line)).
Proof.
  intros [x ->] Hd. destruct st as [d cur]. unfold step. simpl in Hd.
  destruct (search (strip x)) as [k|] eqn:E; simpl; [|exact Hd].
  apply dict_set_Forall; [exact Hd|].
  exists cur, (strip x). simpl.
  split; [reflexivity|]. split; [exact E|].
  apply stripped_line_ends_in_marker, E.
Qed.

Lemma fold_terminated (lines : list text) :
  Forall (fun l => exists x, l = strip x) lines ->
  forall st, Forall terminated (fst st) ->
             Forall terminated (fst (fold_left step lines st)).
Proof.
  induction lines as [|l lines IH]; intros Hl st Hst; simpl; [exact Hst|].
  inversion Hl; subst. apply IH; [assumption|].
  apply step_terminated; assumption.
Qed.

Lemma verses_terminated (content : text) :
  Forall terminated (fst (group_verses (verse_lines content))).
Proof.
  apply fold_terminated; [apply verse_lines_stripped | constructor].
Qed.

(** Lines without a marker leave the dictionary as it is. *)
Lemma fold_unterminated (tail : list text) :
  Forall (fun l => search l = None) tail ->
  forall st, fst (fold_left step tail st) = fst st.
Proof.
  induction tail as [|l tail IH]; intros Hl st; simpl; [reflexivity|].
  inversion Hl; subst. rewrite IH by assumption.
  destruct st as [d cur]. unfold step. rewrite H1. reflexivity.
Qed.

Lemma seni_written (content k c : text) :
  In (k, c) (written (extract_root_verses content)) ->
  In (k, c) (fst (group_verses (verse_lines content))).
Proof.
  unfold extract_root_verses. rewrite In_written_map.
  intros [[k' c'] [Hin He]]. simpl in He. injection He as -> ->. exact Hin.
Qed.

End SeniFacts.

(** C10. In the labelled extraction every written root unit is a run of
    root lines closed by a line that carries the marker of its key, and
    nothing else is logged; root lines that follow the last marker change
    nothing: the document with such lines appended gives the same log. *)
Theorem trailing_root_lines_dropped (content extra : text) :
  Forall (fun l => Seni.search l = None) (Seni.verse_lines extra) ->
  Seni.extract_root_verses (content ++ NL :: extra)
  = Seni.extract_root_verses content
  /\ Forall (fun e => exists k ls l,
                 e = Wrote k (join [NL] (ls ++ [l]))
                 /\ Seni.search l = Some k)
            (Seni.extract_root_verses content).
Proof.
  intros Hx. split.
  - unfold Seni.extract_root_verses, Seni.group_verses.
    rewrite verse_lines_app, fold_left_app, fold_unterminated by exact Hx.
    reflexivity.
  - unfold Seni.extract_root_verses. apply Forall_forall. intros e He.
    apply in_map_iff in He. destruct He as [[k c] [<- Hin]].
    pose proof (verses_terminated content) as Ht.
    rewrite Forall_forall in Ht. apply Ht in Hin.
    destruct Hin as [ls [l [Hc [Hs _]]]]. simpl in Hc, Hs.
    exists k, ls, l. simpl. rewrite Hc. split; [reflexivity | exact Hs].
Qed.

Lemma trailing_root_lines_dropped_witness :
  Seni.verse_lines (T "> b") = [T "b"]
  /\ Forall (fun l => Seni.search l = None) (Seni.verse_lines (T "> b"))
  /\ Seni.extract_root_verses (T "> a || SeNi 1 ||" ++ NL :: T "> b")
     = Seni.extract_root_verses (T "> a || SeNi 1 ||")
  /\ Seni.extract_root_verses (T "> a || SeNi 1 ||")
     = [Wrote (T "1") (T "a || SeNi 1 ||")].
Proof.
  split; [reflexivity|]. split; [repeat constructor|].
  split; [|reflexivity].
  apply (trailing_root_lines_dropped (T "> a || SeNi 1 ||") (T "> b")).
  repeat constructor.
Defined.

(** ** No empty unit *)



Lemma join_starts (sep p : text) (rest : list text) :
  exists b, join sep (p :: rest) = p ++ b.
Proof.
  destruct rest as [|q rest].
  - exists []. simpl. symmetry; apply app_nil_r.
  - exists (sep ++ join sep (q :: rest)). reflexivity.
Qed.



Lemma Forall_written {K : Type} (P : K * text -> Prop) (log : list (event K)) :
  Forall (fun e => match e with Wrote k c => P (k, c) | _ => True end) log ->
  Forall P (written log).
Proof.
  induction 1 as [|e log He _ IH]; simpl; [constructor|].
  destruct e; auto.
Qed.


Section NoEmptyUnit.

Variable marker : text -> option text.




End NoEmptyUnit.












(** The commentary extraction of the line-prefix dialect tests its lines
    with [if line], not [if line.strip()]: a fragment whose only
    unclassified line is white space is written with empty content. *)
Example commentary_of_blank_line :
  Medu.extract_commentary (join [NL] [T ">a"; T " "; T ">b"]) = [Wrote 1 []].
Proof. reflexivity. Qed.

(** ** White space cut off the ends of a text *)

Lemma forallb_weaken (p q : ascii -> bool) (s : text) :
  (forall c, p c = true -> q c = true) ->
  forallb p s = true -> forallb q s = true.
Proof.
  intros H. induction s as [|c s IH]; simpl; [reflexivity|].
  intros Hs. apply andb_true_iff in Hs. destruct Hs as [Hc Hs].
  rewrite (H _ Hc), (IH Hs). reflexivity.
Qed.

Lemma newline_is_space (c : ascii) : Ascii.eqb NL c = true -> is_space c = true.
Proof. intros H. apply ascii_eqb_true in H. subst c. reflexivity. Qed.

Lemma trimmed_trans (a b c : text) :
  trimmed_from a b -> trimmed_from b c -> trimmed_from a c.
Proof.
  intros [p1 [q1 [-> [Hp1 Hq1]]]] [p2 [q2 [-> [Hp2 Hq2]]]].
  exists (p1 ++ p2), (q2 ++ q1). split; [| split].
  - rewrite <- !app_assoc. reflexivity.
  - rewrite forallb_app, Hp1, Hp2. reflexivity.
  - rewrite forallb_app, Hq1, Hq2. reflexivity.
Qed.

Lemma rstrip_trimmed (s : text) : trimmed_from s (rstrip s).
Proof.
  exists [], (rev (takewhile is_space (rev s))). split; [| split].
  - apply rstrip_split.
  - reflexivity.
  - rewrite forallb_rev. apply takewhile_all.
Qed.

Lemma lstrip_nl_trimmed (s : text) : trimmed_from s (lstrip_nl s).
Proof.
  exists (takewhile (Ascii.eqb NL) s), []. split; [| split].
  - rewrite app_nil_r. apply lstrip_nl_split.
  - apply (forallb_weaken (Ascii.eqb NL)); [apply newline_is_space|].
    apply takewhile_all.
  - reflexivity.
Qed.

Lemma trim_section_trimmed (body : text) :
  trimmed_from body (SectionHeader.trim_section body).
Proof.
  apply (trimmed_trans (b := lstrip_nl body)).
  - apply lstrip_nl_trimmed.
  - apply rstrip_trimmed.
Qed.

Lemma dropwhile_app (p : ascii -> bool) (a b : text) :
  dropwhile p (a ++ b)
  = if forallb p a then dropwhile p b else dropwhile p a ++ b.
Proof.
  induction a as [|c a IH]; simpl; [reflexivity|].
  destruct (p c); simpl; [exact IH | reflexivity].
Qed.

Lemma lstrip_app_space (pre s : text) :
  forallb is_space pre = true -> lstrip (pre ++ s) = lstrip s.
Proof. intros H. unfold lstrip. rewrite dropwhile_app, H. reflexivity. Qed.

Lemma rstrip_app_space (s post : text) :
  forallb is_space post = true -> rstrip (s ++ post) = rstrip s.
Proof.
  intros H. unfold rstrip. rewrite rev_app_distr, dropwhile_app.
  rewrite forallb_rev, H. reflexivity.
Qed.

Lemma strip_app_space_r (s post : text) :
  forallb is_space post = true -> strip (s ++ post) = strip s.
Proof.
  intros H. unfold strip, lstrip. rewrite dropwhile_app.
  destruct (forallb is_space s) eqn:E.
  - rewrite (dropwhile_all _ _ H), (dropwhile_all _ _ E). reflexivity.
  - apply rstrip_app_space, H.
Qed.

(** Cutting white space off the ends does not change the stripped text. *)
Lemma trimmed_strip_eq (src c : text) :
  trimmed_from src c -> strip src = strip c.
Proof.
  intros [pre [post [-> [Hpre Hpost]]]].
  unfold strip at 1. rewrite (lstrip_app_space _ _ Hpre).
  apply strip_app_space_r, Hpost.
Qed.

Lemma Forall_written_map {A K : Type} (P : K * text -> Prop)
      (f : A -> event K) (l : list A) :
  (forall x, In x l ->
             match f x with Wrote k c => P (k, c) | _ => True end) ->
  Forall P (written (map f l)).
Proof.
  intros H. apply Forall_written. apply Forall_forall. intros e He.
  apply in_map_iff in He. destruct He as [x [<- Hx]]. apply H, Hx.
Qed.

Lemma section_header_source (marker : text -> option text) (content : text) :
  Forall (fun kc => exists body,
              In (fst kc, body) (SectionHeader.fragments marker content)
              /\ trimmed_from body (snd kc))
         (written (SectionHeader.extract marker content)).
Proof.
  apply Forall_written_map. intros [k body] Hin.
  unfold SectionHeader.emit. simpl.
  destruct (is_empty (strip (SectionHeader.trim_section body))); [exact I|].
  exists body. split; [exact Hin | apply trim_section_trimmed].
Qed.

Lemma seni_commentary_source (content : text) :
  Forall (fun kc => exists body,
              In (fst kc, body)
                 (SectionHeader.fragments SectionHeader.marker_int content)
              /\ trimmed_from (Seni.remove_root_lines body) (snd kc))
         (written (Seni.extract_commentary_sections content)).
Proof.
  apply Forall_written_map. intros [k body] Hin.
  unfold Seni.emit. simpl.
  destruct (is_empty (strip (SectionHeader.trim_section
                               (Seni.remove_root_lines body)))); [exact I|].
  exists body. split; [exact Hin | apply trim_section_trimmed].
Qed.

(** * Further properties of the code *)

(** ** [count_pairs.py]: totals, categories, files that match no root *)

Section CountPairsMore.
Import CountPairsMain.

Variable files : list text.

Lemma step_tallies (st : acc) (r : text) :
  tallies_ok st -> tallies_ok (step files st r).
Proof.
  unfold tallies_ok, step. intros [Ht [H0 [H1 Hm]]].
  destruct (length (find_commentaries files (drop_last 5 r))) as [|[|n]];
    cbn [a_total_pairs a_root_only a_single a_multiple a_results];
    rewrite map_app, list_sum_app, !filter_app, !length_app; simpl; lia.
Qed.

Lemma fold_tallies (roots : list text) (st : acc) :
  tallies_ok st -> tallies_ok (fold_left (step files) roots st).
Proof.
  revert st; induction roots as [|r roots IH]; intros st H; simpl; auto.
  apply IH, step_tallies, H.
Qed.

Lemma report_tallies :
  tallies_ok (fold_left (step files) (root_files files) (mkAcc 0 0 0 0 [])).
Proof. apply fold_tallies. repeat split. Qed.

End CountPairsMore.

(** [total_pairs] is the sum of the pair counts of all entries, and the
    pair count of an entry is the number of its commentaries. *)
Theorem total_pairs_is_sum_of_matches (files : list text) :
  let rep := count_pairs_root_first files in
  total_pairs rep = list_sum (map pairs (results rep))
  /\ total_pairs rep
     = list_sum (map (fun r => length (commentaries r)) (results rep)).
Proof.
  destruct (report_tallies files) as [Ht _]. cbv zeta.
  assert (E : total_pairs (count_pairs_root_first files)
              = list_sum (map pairs (results (count_pairs_root_first files))))
    by exact Ht.
  split; [exact E|]. rewrite E, results_eq, !map_map. reflexivity.
Qed.

(** The three lists of examples that [main] prints are as long as the
    three counters of the report say. *)
Theorem example_lists_match_counters (files : list text) :
  let rep := count_pairs_root_first files in
  length (CountPairsMain.root_only rep) = root_only_count rep
  /\ length (CountPairsMain.single_pairs rep) = single_pair_count rep
  /\ length (CountPairsMain.multiple_pairs rep) = multiple_pair_count rep.
Proof.
  destruct (report_tallies files) as [_ [H0 [H1 Hm]]]. cbv zeta.
  repeat split; symmetry; assumption.
Qed.

Lemma fold_left_ext_in {A B : Type} (f g : A -> B -> A) (l : list B) :
  (forall a b, In b l -> f a b = g a b) ->
  forall a, fold_left f l a = fold_left g l a.
Proof.
  induction l as [|b l IH]; intros H a; simpl; [reflexivity|].
  rewrite H by (left; reflexivity). apply IH.
  intros a' b' Hb. apply H. right; exact Hb.
Qed.

Lemma filter_insert_false {A : Type} (p : A -> bool) (l1 l2 : list A) (x : A) :
  p x = false -> filter p (l1 ++ x :: l2) = filter p (l1 ++ l2).
Proof. intros H. rewrite !filter_app. simpl. rewrite H. reflexivity. Qed.

(** A file that is no root file and starts with no root's prefix and
    underscore changes nothing: the report is the same with or without it in
    the listing. *)
Theorem unmatched_file_is_ignored (files1 files2 : list text) (f : text) :
  endswith f (T "_root") = false ->
  (forall r, In r (files1 ++ files2) -> endswith r (T "_root") = true ->
             startswith (drop_last 5 r ++ T "_") f = false) ->
  count_pairs_root_first (files1 ++ f :: files2)
  = count_pairs_root_first (files1 ++ files2).
Proof.
  intros Hf Hno. unfold count_pairs_root_first.
  assert (Hroots : root_files (files1 ++ f :: files2)
                   = root_files (files1 ++ files2)).
  { unfold root_files. apply filter_insert_false. exact Hf. }
  rewrite Hroots.
  rewrite (fold_left_ext_in (step (files1 ++ f :: files2))
                            (step (files1 ++ files2))).
  - reflexivity.
  - intros st r Hr. unfold root_files in Hr. apply filter_In in Hr.
    destruct Hr as [Hin Hend].
    assert (Hc : find_commentaries (files1 ++ f :: files2) (drop_last 5 r)
                 = find_commentaries (files1 ++ files2) (drop_last 5 r)).
    { unfold find_commentaries. apply filter_insert_false.
      rewrite (Hno r Hin Hend). reflexivity. }
    unfold step. rewrite Hc. reflexivity.
Qed.

Lemma unmatched_file_is_ignored_witness :
  endswith (T "y_9_p") (T "_root") = false
  /\ count_pairs_root_first [T "x_1_root"; T "y_9_p"; T "x_1_p"]
     = count_pairs_root_first [T "x_1_root"; T "x_1_p"].
Proof.
  split; [reflexivity|].
  apply (unmatched_file_is_ignored [T "x_1_root"] [T "x_1_p"] (T "y_9_p")).
  - reflexivity.
  - intros r [<- | [<- | []]] H; [reflexivity | discriminate H].
Defined.

(** ** [count_pairs.py]: the breakdown by text siglum *)

Section Breakdown.
Import CountPairsMain.

Lemma bump_sums (d : list (text * (nat * nat))) (k : text) (p : nat) :
  sum_roots (bump d k p) = sum_roots d + 1
  /\ sum_pairs (bump d k p) = sum_pairs d + p.
Proof.
  unfold sum_roots, sum_pairs.
  induction d as [|[k' [r q]] d [IH1 IH2]]; simpl; [lia|].
  destruct (text_eqb k k'); simpl; [lia|]. rewrite IH1, IH2. lia.
Qed.

Lemma bump_keys (d : list (text * (nat * nat))) (k : text) (p : nat) :
  (In k (map fst d) /\ map fst (bump d k p) = map fst d)
  \/ (~ In k (map fst d) /\ map fst (bump d k p) = map fst d ++ [k]).
Proof.
  induction d as [|[k' [r q]] d IH]; simpl.
  - right. split; [tauto | reflexivity].
  - destruct (text_eqb k k') eqn:E.
    + apply text_eqb_eq in E. subst k'. left. split; [left|]; reflexivity.
    + assert (Hne : k' <> k).
      { intros ->. rewrite (proj2 (text_eqb_eq k k) eq_refl) in E.
        discriminate. }
      destruct IH as [[Hin Hk] | [Hnin Hk]]; simpl; rewrite Hk.
      * left. split; [right; exact Hin | reflexivity].
      * right. split; [intros [H|H]; [exact (Hne H) | exact (Hnin H)]
                      | reflexivity].
Qed.

Lemma bump_nodup (d : list (text * (nat * nat))) (k : text) (p : nat) :
  NoDup (map fst d) -> NoDup (map fst (bump d k p)).
Proof.
  intros Hd. destruct (bump_keys d k p) as [[_ ->] | [Hnin ->]];
    [exact Hd|].
  apply NoDup_app; [exact Hd | repeat constructor; simpl; tauto |].
  intros x Hx [<- | []]. exact (Hnin Hx).
Qed.

Lemma bump_has_key (d : list (text * (nat * nat))) (k k' : text) (p : nat) :
  k' = k \/ In k' (map fst d) -> In k' (map fst (bump d k p)).
Proof.
  destruct (bump_keys d k p) as [[Hin ->] | [Hnin ->]].
  - intros [-> | H]; assumption.
  - intros [-> | H]; apply in_or_app; [right; left; reflexivity | left; exact H].
Qed.

Lemma rollup_facts (rs : list result) (d : list (text * (nat * nat))) :
  NoDup (map fst d) ->
  let d' := fold_left (fun by_text r =>
                         bump by_text (text_siglum (root r)) (pairs r)) rs d in
  NoDup (map fst d')
  /\ sum_roots d' = sum_roots d + length rs
  /\ sum_pairs d' = sum_pairs d + list_sum (map pairs rs)
  /\ (forall k, In k (map fst d) \/ In k (map text_siglum (map root rs)) ->
                In k (map fst d')).
Proof.
  revert d; induction rs as [|r rs IH]; intros d Hd; simpl.
  - repeat split; try lia; auto. intros k [H | []]; exact H.
  - destruct (IH (bump d (text_siglum (root r)) (pairs r)))
      as [Hn [Hr [Hp Hk]]]; [apply bump_nodup, Hd|].
    destruct (bump_sums d (text_siglum (root r)) (pairs r)) as [Er Ep].
    split; [exact Hn|]. split; [rewrite Hr, Er; lia|].
    split; [rewrite Hp, Ep; lia|].
    intros k [H | [H | H]]; apply Hk.
    + left. apply bump_has_key. right; exact H.
    + left. apply bump_has_key. left; symmetry; exact H.
    + right; exact H.
Qed.

Lemma text_leb_total (a b : text) :
  text_leb a b = false -> text_leb b a = true.
Proof.
  revert b; induction a as [|x a IH]; intros [|y b]; simpl; try discriminate;
    try reflexivity.
  destruct (nat_of_ascii x <? nat_of_ascii y) eqn:E1; [discriminate|].
  destruct (nat_of_ascii y <? nat_of_ascii x) eqn:E2; [reflexivity|].
  apply IH.
Qed.

Lemma insert_sorted_perm (k : text) (l : list text) :
  Permutation (insert_sorted k l) (k :: l).
Proof.
  induction l as [|k' l IH]; simpl; [reflexivity|].
  destruct (text_leb k k'); [reflexivity|].
  rewrite IH. apply perm_swap.
Qed.

Lemma sorted_perm (l : list text) : Permutation (sorted l) l.
Proof.
  induction l as [|k l IH]; simpl; [reflexivity|].
  rewrite insert_sorted_perm. constructor. exact IH.
Qed.

Lemma insert_sorted_sorted (k : text) (l : list text) :
  Sorted (fun a b => text_leb a b = true) l ->
  Sorted (fun a b => text_leb a b = true) (insert_sorted k l).
Proof.
  induction l as [|k' l IH]; intros Hs; simpl.
  - repeat constructor.
  - destruct (text_leb k k') eqn:E.
    + constructor; [exact Hs | constructor; exact E].
    + inversion Hs as [|? ? Hs' Hhd]; subst.
      constructor; [apply IH, Hs'|].
      destruct l as [|k'' l]; simpl.
      * constructor. apply text_leb_total, E.
      * destruct (text_leb k k''); constructor.
        -- apply text_leb_total, E.
        -- inversion Hhd; assumption.
Qed.

Lemma sorted_sorted (l : list text) :
  Sorted (fun a b => text_leb a b = true) (sorted l).
Proof.
  induction l as [|k l IH]; simpl; [constructor|].
  apply insert_sorted_sorted, IH.
Qed.

Lemma list_sum_perm (l l' : list nat) :
  Permutation l l' -> list_sum l = list_sum l'.
Proof. induction 1; simpl; lia. Qed.

Lemma lookup_entries (d : list (text * (nat * nat))) :
  NoDup (map fst d) -> map (lookup d) (map fst d) = map snd d.
Proof.
  induction d as [|[k v] d IH]; simpl; intros Hd; [reflexivity|].
  inversion Hd as [|? ? Hnin Hd']; subst.
  rewrite (proj2 (text_eqb_eq k k) eq_refl). f_equal.
  rewrite <- (IH Hd'). apply map_ext_in. intros k' Hk'.
  destruct (text_eqb k' k) eqn:E; [|reflexivity].
  apply text_eqb_eq in E. subst k'. contradiction.
Qed.

End Breakdown.

(** The breakdown by text siglum loses and invents nothing: its root
    counts add up to [total_root_files] and its pair counts to
    [total_pairs]; every root's siglum has a line; the lines come in
    ascending order, one per siglum. *)
Theorem breakdown_adds_up (files : list text) :
  let rep := count_pairs_root_first files in
  let lines := CountPairsMain.breakdown rep in
  list_sum (map (fun e => fst (snd e)) lines) = total_root_files rep
  /\ list_sum (map (fun e => snd (snd e)) lines) = total_pairs rep
  /\ (forall r, In r (results rep) ->
                In (CountPairsMain.text_siglum (root r)) (map fst lines))
  /\ Sorted (fun a b => CountPairsMain.text_leb a b = true) (map fst lines)
  /\ NoDup (map fst lines).
Proof.
  cbv zeta. unfold CountPairsMain.breakdown.
  set (rs := results (count_pairs_root_first files)).
  destruct (rollup_facts rs []) as [Hn [Hr [Hp Hk]]]; [constructor|].
  fold (CountPairsMain.rollup rs) in Hn, Hr, Hp, Hk.
  set (d := CountPairsMain.rollup rs) in *.
  pose proof (sorted_perm (map fst d)) as Hperm.
  assert (Hkeys : map fst (map (fun k => (k, CountPairsMain.lookup d k))
                               (CountPairsMain.sorted (map fst d)))
                  = CountPairsMain.sorted (map fst d)).
  { rewrite map_map. simpl. apply map_id. }
  assert (Hvals : Permutation
                    (map snd (map (fun k => (k, CountPairsMain.lookup d k))
                                  (CountPairsMain.sorted (map fst d))))
                    (map snd d)).
  { rewrite map_map. simpl. rewrite <- (lookup_entries d Hn).
    apply Permutation_map, Hperm. }
  split; [| split; [| split; [| split]]].
  - rewrite <- (map_map snd fst).
    rewrite (list_sum_perm (Permutation_map fst Hvals)), map_map.
    change (CountPairsMain.sum_roots d = total_root_files (count_pairs_root_first files)).
    rewrite Hr. unfold CountPairsMain.sum_roots. simpl. unfold rs.
    apply length_root_results.
  - rewrite <- (map_map snd snd).
    rewrite (list_sum_perm (Permutation_map snd Hvals)), map_map.
    change (CountPairsMain.sum_pairs d = total_pairs (count_pairs_root_first files)).
    rewrite Hp. unfold CountPairsMain.sum_pairs. simpl. unfold rs. symmetry.
    apply (proj1 (report_tallies files)).
  - intros r Hin. rewrite Hkeys.
    apply (Permutation_in _ (Permutation_sym Hperm)).
    apply Hk. right. apply in_map, in_map, Hin.
  - rewrite Hkeys. apply sorted_sorted.
  - rewrite Hkeys. apply (Permutation_NoDup (Permutation_sym Hperm)), Hn.
Qed.

(** ** The section-header dialect: round trip and keys *)

(** With nothing but white space before the first marker, the (key, body)
    pairs the loop of [bca_p_extraction.py], resp. of [mua_extraction.py]
    and of the commentary extraction of [seni_extract.py], runs over, each
    body behind its marker line [--- key], give the document back. *)
Theorem section_fragments_rebuild_document (content : text) :
  (is_empty (strip (hd [] (SectionHeader.re_split
                            SectionHeader.marker_dotted content))) = true ->
   content
   = hd [] (SectionHeader.re_split SectionHeader.marker_dotted content)
     ++ SectionHeader.reassemble
          (SectionHeader.fragments SectionHeader.marker_dotted content))
  /\ (is_empty (strip (hd [] (SectionHeader.re_split
                               SectionHeader.marker_int content))) = true ->
      content
      = hd [] (SectionHeader.re_split SectionHeader.marker_int content)
        ++ SectionHeader.reassemble
             (SectionHeader.fragments SectionHeader.marker_int content)).
Proof.
  split.
  - apply (bca_p_rebuilds_document content).
  - apply (mua_rebuilds_document content).
Qed.

Lemma section_fragments_rebuild_document_witness :
  let doc := join [NL] [T ""; T "--- 1.1"; T "Alpha"; T "--- 1.2"; T "Beta"] in
  SectionHeader.fragments SectionHeader.marker_dotted doc
  = [(T "1.1", NL :: T "Alpha" ++ [NL]); (T "1.2", NL :: T "Beta")]
  /\ doc = hd [] (SectionHeader.re_split SectionHeader.marker_dotted doc)
           ++ SectionHeader.reassemble
                (SectionHeader.fragments SectionHeader.marker_dotted doc).
Proof.
  split; [reflexivity|].
  apply (proj1 (section_fragments_rebuild_document
                  (join [NL] [T ""; T "--- 1.1"; T "Alpha"; T "--- 1.2";
                              T "Beta"]))).
  reflexivity.
Defined.

Section SectionKeys.
Import SectionHeader.

Variable marker : text -> option text.

(** Every key [re.split] returns was captured on a line of the text, and
    there is one key per marker line. *)
Lemma re_split_lines_keys (lines : list text) (cur : text) :
  exists s0 frags,
    re_split_lines marker cur lines = s0 :: interleave frags
    /\ Forall (fun kb => exists l, In l lines /\ marker l = Some (fst kb)) frags
    /\ length frags = length (filter (is_marker marker) lines).
Proof.
  revert cur; induction lines as [|l rest IH]; intros cur.
  - exists cur, []. repeat split. constructor.
  - simpl re_split_lines.
    change (filter (is_marker marker) (l :: rest))
      with (if is_marker marker l then l :: filter (is_marker marker) rest
            else filter (is_marker marker) rest).
    assert (Hm : is_marker marker l = match marker l with
                                | Some _ => true | None => false end)
      by reflexivity.
    rewrite Hm. clear Hm.
    destruct (marker l) as [k|] eqn:E.
    + destruct (IH (eol rest)) as [s1 [frags [Hs [Hk Hn]]]].
      exists cur, ((k, s1) :: frags). split; [rewrite Hs; reflexivity|].
      split; [| simpl; rewrite Hn; reflexivity].
      constructor.
      * exists l. split; [left; reflexivity | exact E].
      * eapply Forall_impl; [| exact Hk].
        intros kb [l' [Hin Hm]]. exists l'. split; [right; exact Hin | exact Hm].
    + destruct (IH (cur ++ l ++ eol rest)) as [s0 [frags [Hs [Hk Hn]]]].
      exists s0, frags. split; [exact Hs|]. split; [| exact Hn].
      eapply Forall_impl; [| exact Hk].
      intros kb [l' [Hin Hm]]. exists l'. split; [right; exact Hin | exact Hm].
Qed.

Lemma blank_head_keys (content : text) :
  is_empty (strip (hd [] (re_split marker content))) = true ->
  Forall (fun kb => exists l, In l (split_nl content)
                              /\ marker l = Some (fst kb))
         (fragments marker content)
  /\ length (fragments marker content)
     = length (filter (is_marker marker) (split_nl content)).
Proof.
  unfold fragments, re_split.
  destruct (re_split_lines_keys (split_nl content) [])
    as [s0 [frags [Hs [Hk Hn]]]].
  rewrite Hs. simpl hd. intros Hb. unfold drop_blank_head. rewrite Hb.
  rewrite pairs_of_interleave. split; assumption.
Qed.

End SectionKeys.

Lemma marker_int_digits (l k : text) :
  SectionHeader.marker_int l = Some k -> SectionHeader.all_digits k = true.
Proof.
  unfold SectionHeader.marker_int.
  destruct l as [|[[] [] [] [] [] [] [] []] l]; try discriminate.
  destruct l as [|[[] [] [] [] [] [] [] []] l]; try discriminate.
  destruct l as [|[[] [] [] [] [] [] [] []] l]; try discriminate.
  destruct l as [|[[] [] [] [] [] [] [] []] l]; try discriminate.
  destruct (SectionHeader.all_digits l) eqn:E; [|discriminate].
  intros [= <-]. exact E.
Qed.

Lemma takewhile_nonempty_digits (s : text) :
  is_empty (takewhile is_digit s) = false ->
  SectionHeader.all_digits (takewhile is_digit s) = true.
Proof.
  intros H. unfold SectionHeader.all_digits.
  rewrite H, takewhile_all. reflexivity.
Qed.

Lemma marker_dotted_digits (l k : text) :
  SectionHeader.marker_dotted l = Some k ->
  exists d1 d2, k = d1 ++ "."%char :: d2
                /\ SectionHeader.all_digits d1 = true
                /\ SectionHeader.all_digits d2 = true.
Proof.
  unfold SectionHeader.marker_dotted.
  destruct l as [|[[] [] [] [] [] [] [] []] l]; try discriminate.
  destruct l as [|[[] [] [] [] [] [] [] []] l]; try discriminate.
  destruct l as [|[[] [] [] [] [] [] [] []] l]; try discriminate.
  destruct l as [|[[] [] [] [] [] [] [] []] l]; try discriminate.
  destruct (dropwhile is_digit l) as [|[[] [] [] [] [] [] [] []] d2] eqn:E;
    try discriminate.
  destruct (negb (is_empty (takewhile is_digit l))) eqn:E1; [|discriminate].
  destruct (SectionHeader.all_digits d2) eqn:E2; [|discriminate].
  intros [= <-]. exists (takewhile is_digit l), d2.
  split; [| split; [| exact E2]].
  - rewrite <- E. symmetry; apply takewhile_dropwhile.
  - apply takewhile_nonempty_digits. apply negb_true_iff in E1. exact E1.
Qed.

Lemma keys_from_fragments (marker : text -> option text) (content : text)
      (P : text -> Prop) (units : list (text * text)) :
  Forall (fun kb => exists l, In l (split_nl content)
                              /\ marker l = Some (fst kb))
         (SectionHeader.fragments marker content) ->
  (forall l k, marker l = Some k -> l = SectionHeader.marker_line k /\ P k) ->
  Forall (fun kc => exists body,
              In (fst kc, body) (SectionHeader.fragments marker content))
         units ->
  Forall (fun kc => P (fst kc)
                    /\ In (T "--- " ++ fst kc) (split_nl content))
         units.
Proof.
  intros Hfr Hm Hu. rewrite Forall_forall in Hfr.
  eapply Forall_impl; [| exact Hu].
  intros [k c] [body Hin]. simpl in *.
  destruct (Hfr _ Hin) as [l [Hl Hk]]. simpl in Hk.
  destruct (Hm _ _ Hk) as [-> HP]. split; [exact HP | exact Hl].
Qed.

(** With nothing but white space before the first marker, every marker
    line gives exactly one event, a written unit or an "empty" warning,
    and the key of every written unit is the number of a marker line of
    the document: [digits.digits] in [bca_p_extraction.py], digits in
    [mua_extraction.py] and in the commentary extraction of
    [seni_extract.py]. *)
Theorem section_keys_are_marker_numbers (content : text) :
  (is_empty (strip (hd [] (SectionHeader.re_split
                            SectionHeader.marker_dotted content))) = true ->
   length (BcaP.extract_commentary_sections content)
   = length (filter (is_marker SectionHeader.marker_dotted) (split_nl content))
   /\ Forall (fun kc =>
                (exists d1 d2, fst kc = d1 ++ "."%char :: d2
                               /\ SectionHeader.all_digits d1 = true
                               /\ SectionHeader.all_digits d2 = true)
                /\ In (T "--- " ++ fst kc) (split_nl content))
             (written (BcaP.extract_commentary_sections content)))
  /\ (is_empty (strip (hd [] (SectionHeader.re_split
                               SectionHeader.marker_int content))) = true ->
      length (Mua.extract_mua_commentary content)
      = length (filter (is_marker SectionHeader.marker_int) (split_nl content))
      /\ length (Seni.extract_commentary_sections content)
         = length (filter (is_marker SectionHeader.marker_int)
                          (split_nl content))
      /\ Forall (fun kc => SectionHeader.all_digits (fst kc) = true
                           /\ In (T "--- " ++ fst kc) (split_nl content))
                (written (Mua.extract_mua_commentary content))
      /\ Forall (fun kc => SectionHeader.all_digits (fst kc) = true
                           /\ In (T "--- " ++ fst kc) (split_nl content))
                (written (Seni.extract_commentary_sections content))).
Proof.
  split; intros Hb; destruct (blank_head_keys _ _ Hb) as [Hk Hn].
  - split.
    + unfold BcaP.extract_commentary_sections, SectionHeader.extract.
      rewrite length_map. exact Hn.
    + apply (@keys_from_fragments SectionHeader.marker_dotted content
               (fun k => exists d1 d2, k = d1 ++ "."%char :: d2
                                       /\ SectionHeader.all_digits d1 = true
                                       /\ SectionHeader.all_digits d2 = true)
               _ Hk).
      * intros l k H. split; [apply marker_dotted_sound, H
                             | apply (marker_dotted_digits _ H)].
      * eapply Forall_impl; [| apply section_header_source].
        intros kc [body [Hin _]]. exists body. exact Hin.
  - split; [| split; [| split]].
    + unfold Mua.extract_mua_commentary, SectionHeader.extract.
      rewrite length_map. exact Hn.
    + unfold Seni.extract_commentary_sections. rewrite length_map. exact Hn.
    + apply (@keys_from_fragments SectionHeader.marker_int content
               (fun k => SectionHeader.all_digits k = true) _ Hk).
      * intros l k H. split; [apply marker_int_sound, H
                             | apply (marker_int_digits _ H)].
      * eapply Forall_impl; [| apply section_header_source].
        intros kc [body [Hin _]]. exists body. exact Hin.
    + apply (@keys_from_fragments SectionHeader.marker_int content
               (fun k => SectionHeader.all_digits k = true) _ Hk).
      * intros l k H. split; [apply marker_int_sound, H
                             | apply (marker_int_digits _ H)].
      * eapply Forall_impl; [| apply seni_commentary_source].
        intros kc [body [Hin _]]. exists body. exact Hin.
Qed.

Lemma section_keys_are_marker_numbers_witness :
  let doc := join [NL] [T "--- 3"; T "Alpha"; T "--- 4"; T " "; T "--- 5"] in
  Mua.extract_mua_commentary doc
  = [Wrote (T "3") (T "Alpha"); EmptySkipped (T "4"); EmptySkipped (T "5")]
  /\ length (Mua.extract_mua_commentary doc)
     = length (filter (is_marker SectionHeader.marker_int) (split_nl doc))
  /\ Forall (fun kc => SectionHeader.all_digits (fst kc) = true
                       /\ In (T "--- " ++ fst kc) (split_nl doc))
            (written (Mua.extract_mua_commentary doc)).
Proof.
  split; [reflexivity|].
  pose proof (proj2 (section_keys_are_marker_numbers
                       (join [NL] [T "--- 3"; T "Alpha"; T "--- 4"; T " ";
                                   T "--- 5"])) eq_refl) as H.
  split; [exact (proj1 H) | exact (proj1 (proj2 (proj2 H)))].
Defined.

(** ** The verse-end dialect: coverage and keys *)

Lemma takewhile_app_stop (p : ascii -> bool) (a : text) (c : ascii) (r : text) :
  forallb p a = true -> p c = false ->
  takewhile p (a ++ c :: r) = a /\ dropwhile p (a ++ c :: r) = c :: r.
Proof.
  intros Ha Hc. induction a as [|x a IH]; simpl in *.
  - rewrite Hc. split; reflexivity.
  - apply andb_true_iff in Ha. destruct Ha as [Hx Ha]. rewrite Hx.
    destruct (IH Ha) as [-> ->]. split; reflexivity.
Qed.

Lemma all_digits_split (d : text) :
  SectionHeader.all_digits d = true <-> d <> [] /\ forallb is_digit d = true.
Proof.
  unfold SectionHeader.all_digits.
  rewrite andb_true_iff, negb_true_iff, is_empty_false. reflexivity.
Qed.

(** A marker [|| d1.d2 ||] is recognised wherever it stands. *)
Lemma marker_at_complete (d1 d2 rest : text) :
  SectionHeader.all_digits d1 = true ->
  SectionHeader.all_digits d2 = true ->
  BcaRoot.marker_at (BcaRoot.marker_text (d1 ++ "."%char :: d2) ++ rest)
  = Some (d1 ++ "."%char :: d2, rest).
Proof.
  intros H1 H2. apply all_digits_split in H1, H2.
  destruct H1 as [N1 F1], H2 as [N2 F2].
  unfold BcaRoot.marker_text.
  change (T "|| " ++ (d1 ++ "."%char :: d2) ++ T " ||")
    with ("|"%char :: "|"%char :: " "%char
                   :: ((d1 ++ "."%char :: d2) ++ T " ||")).
  cbn [app]. unfold BcaRoot.marker_at.
  replace (((d1 ++ "."%char :: d2) ++ T " ||") ++ rest)
    with (d1 ++ "."%char :: (d2 ++ " "%char :: T "||" ++ rest))
    by (rewrite <- !app_assoc; reflexivity).
  destruct (takewhile_app_stop is_digit d1 "."%char
                               (d2 ++ " "%char :: T "||" ++ rest) F1 eq_refl)
    as [-> ->].
  destruct (takewhile_app_stop is_digit d2 " "%char (T "||" ++ rest)
                               F2 eq_refl) as [-> ->].
  cbn [T list_ascii_of_string app].
  destruct d1; [congruence|]. destruct d2; [congruence|]. reflexivity.
Qed.

Lemma marker_at_key (s k rest : text) :
  BcaRoot.marker_at s = Some (k, rest) ->
  exists d1 d2, k = d1 ++ "."%char :: d2
                /\ SectionHeader.all_digits d1 = true
                /\ SectionHeader.all_digits d2 = true.
Proof.
  unfold BcaRoot.marker_at.
  destruct s as [|[[] [] [] [] [] [] [] []] s]; try discriminate.
  destruct s as [|[[] [] [] [] [] [] [] []] s]; try discriminate.
  destruct s as [|[[] [] [] [] [] [] [] []] s]; try discriminate.
  destruct (dropwhile is_digit s) as [|[[] [] [] [] [] [] [] []] r2] eqn:E1;
    try discriminate.
  destruct (dropwhile is_digit r2) as [|[[] [] [] [] [] [] [] []] r3] eqn:E2;
    try discriminate.
  destruct r3 as [|[[] [] [] [] [] [] [] []] r3]; try discriminate.
  destruct r3 as [|[[] [] [] [] [] [] [] []] r3]; try discriminate.
  destruct (negb (is_empty (takewhile is_digit s))) eqn:N1; [|discriminate].
  destruct (negb (is_empty (takewhile is_digit r2))) eqn:N2; [|discriminate].
  intros [= <- <-].
  exists (takewhile is_digit s), (takewhile is_digit r2).
  apply negb_true_iff in N1, N2.
  split; [reflexivity|].
  split; apply takewhile_nonempty_digits; assumption.
Qed.

Lemma find_marker_key (s pre p k rest : text) :
  BcaRoot.find_marker pre s = Some (p, k, rest) ->
  exists d1 d2, k = d1 ++ "."%char :: d2
                /\ SectionHeader.all_digits d1 = true
                /\ SectionHeader.all_digits d2 = true.
Proof.
  revert pre; induction s as [|c s IH]; intros pre.
  - simpl. discriminate.
  - rewrite find_marker_cons.
    destruct (BcaRoot.marker_at (c :: s)) as [[k' r']|] eqn:E.
    + intros [= _ <- _]. apply (marker_at_key _ E).
    + apply IH.
Qed.

Lemma findall_fuel_keys (n : nat) (s : text) :
  Forall (fun m => exists d1 d2, snd m = d1 ++ "."%char :: d2
                                 /\ SectionHeader.all_digits d1 = true
                                 /\ SectionHeader.all_digits d2 = true)
         (BcaRoot.findall_fuel n s).
Proof.
  revert s; induction n as [|n IH]; intros s; simpl; [constructor|].
  destruct (BcaRoot.find_marker [] s) as [[[p k] rest]|] eqn:E;
    [|constructor].
  constructor; [apply (find_marker_key _ _ E) | apply IH].
Qed.

(** When the search finds nothing, no marker stands anywhere in the text. *)
Lemma find_marker_none (s pre : text) :
  BcaRoot.find_marker pre s = None ->
  forall a s', s = a ++ s' -> BcaRoot.marker_at s' = None.
Proof.
  revert pre; induction s as [|c s IH]; intros pre H a s' E.
  - destruct a; [|discriminate]. simpl in E. subst s'. reflexivity.
  - rewrite find_marker_cons in H.
    destruct (BcaRoot.marker_at (c :: s)) as [[k' r']|] eqn:Em;
      [discriminate|].
    destruct a as [|x a]; simpl in E.
    + subst s'. exact Em.
    + injection E as _ E. apply (@IH _ H a s' E).
Qed.

(** [re.findall] misses nothing: the matches, each with its marker, follow
    one another from the start of the document, what is left behind the
    last one holds no marker [|| d.d ||], and every match gives one
    event, a written verse or an "empty" warning. *)
Theorem verse_matches_cover_document (content : text) :
  exists tail,
    content = BcaRoot.tiles (BcaRoot.findall content) ++ tail
    /\ (forall a d1 d2 rest,
          SectionHeader.all_digits d1 = true ->
          SectionHeader.all_digits d2 = true ->
          tail <> a ++ BcaRoot.marker_text (d1 ++ "."%char :: d2) ++ rest)
    /\ length (BcaRoot.extract_verse_sections content)
       = length (BcaRoot.findall content).
Proof.
  destruct (findall_tiles content) as [tail [Ht Hnone]].
  exists tail. split; [exact Ht|]. split.
  - intros a d1 d2 rest H1 H2 E.
    pose proof (@find_marker_none tail [] Hnone a _ E) as Hm.
    rewrite (@marker_at_complete d1 d2 rest H1 H2) in Hm. discriminate.
  - unfold BcaRoot.extract_verse_sections. apply length_map.
Qed.

(** The key of every verse [bca_root_extract.py] writes is of the shape
    digits, dot, digits; the key of every verse of the labelled extraction
    of [seni_extract.py] is made of digits. *)
Theorem verse_keys_are_numbers (content : text) :
  Forall (fun kc => exists d1 d2, fst kc = d1 ++ "."%char :: d2
                                  /\ SectionHeader.all_digits d1 = true
                                  /\ SectionHeader.all_digits d2 = true)
         (written (BcaRoot.extract_verse_sections content))
  /\ Forall (fun kc => SectionHeader.all_digits (fst kc) = true)
            (written (Seni.extract_root_verses content)).
Proof.
  split.
  - apply Forall_forall. intros [k c] H.
    apply bca_root_written in H. destruct H as [pre [Hin _]].
    pose proof (findall_fuel_keys (length content) content) as Hk.
    rewrite Forall_forall in Hk. apply (Hk _ Hin).
  - apply Forall_forall. intros [k c] H. apply seni_written in H.
    pose proof (verses_terminated content) as Ht.
    rewrite Forall_forall in Ht. apply Ht in H.
    destruct H as [ls [l [_ [Hs _]]]]. simpl in Hs. simpl.
    clear -Hs. induction l as [|x l IH]; [discriminate Hs|].
    change (Seni.search (x :: l))
      with (match Seni.marker_at (x :: l) with
            | Some k => Some k
            | None => Seni.search l
            end) in Hs.
    destruct (Seni.marker_at (x :: l)) as [k'|] eqn:E; [|exact (IH Hs)].
    injection Hs as ->. unfold Seni.marker_at in E.
    destruct (startswith (T "|| SeNi ") (x :: l)); [|discriminate].
    cbv zeta in E.
    destruct (negb (is_empty (takewhile is_digit (skipn 8 (x :: l)))))
      eqn:N; [|discriminate].
    destruct (startswith (T " ||") (dropwhile is_digit (skipn 8 (x :: l))));
      [|discriminate].
    destruct (forallb is_space
                (skipn 3 (dropwhile is_digit (skipn 8 (x :: l)))));
      [|discriminate].
    injection E as <-. apply takewhile_nonempty_digits.
    apply negb_true_iff in N. exact N.
Qed.

(** ** [seni_extract.py]: one unit per verse number *)

Section SeniDict.
Import Seni.

Lemma text_eqb_neq (a b : text) : text_eqb a b = false <-> a <> b.
Proof.
  split.
  - intros H E. apply text_eqb_eq in E. congruence.
  - intros H. destruct (text_eqb a b) eqn:E; [|reflexivity].
    apply text_eqb_eq in E. contradiction.
Qed.

Lemma dict_set_keys (d : list (text * text)) (k v : text) :
  (In k (map fst d) /\ map fst (dict_set d k v) = map fst d)
  \/ (~ In k (map fst d) /\ map fst (dict_set d k v) = map fst d ++ [k]).
Proof.
  induction d as [|[k' v'] d IH]; simpl.
  - right. split; [tauto | reflexivity].
  - destruct (text_eqb k k') eqn:E.
    + apply text_eqb_eq in E. subst k'. left. split; [left|]; reflexivity.
    + apply text_eqb_neq in E.
      destruct IH as [[Hin Hk] | [Hnin Hk]]; simpl; rewrite Hk.
      * left. split; [right; exact Hin | reflexivity].
      * right. split; [| reflexivity].
        intros [H|H]; [apply E; symmetry; exact H | exact (Hnin H)].
Qed.

Lemma dict_set_nodup (d : list (text * text)) (k v : text) :
  NoDup (map fst d) -> NoDup (map fst (dict_set d k v)).
Proof.
  intros Hd. destruct (dict_set_keys d k v) as [[_ ->] | [Hnin ->]];
    [exact Hd|].
  apply NoDup_app; [exact Hd | repeat constructor; simpl; tauto |].
  intros x Hx [<- | []]. exact (Hnin Hx).
Qed.

Lemma fold_nodup (lines : list text) (st : list (text * text) * list text) :
  NoDup (map fst (fst st)) ->
  NoDup (map fst (fst (fold_left step lines st))).
Proof.
  revert st; induction lines as [|l lines IH]; intros st H; simpl; [exact H|].
  apply IH. destruct st as [d cur]. unfold step.
  destruct (search l); simpl; [apply dict_set_nodup|]; exact H.
Qed.

(** The entry set last is there. *)
Lemma dict_set_in (d : list (text * text)) (k v : text) :
  In (k, v) (dict_set d k v).
Proof.
  induction d as [|[k' v'] d IH]; simpl; [left; reflexivity|].
  destruct (text_eqb k k'); [left; reflexivity | right; exact IH].
Qed.

(** Setting another key keeps an entry. *)
Lemma dict_set_other (d : list (text * text)) (k v k' v' : text) :
  k' <> k -> In (k, v) d -> In (k, v) (dict_set d k' v').
Proof.
  intros Hne. induction d as [|[k0 v0] d IH]; simpl; [tauto|].
  intros [H | H].
  - injection H as -> ->.
    destruct (text_eqb k' k) eqn:E; [|left; reflexivity].
    apply text_eqb_eq in E. contradiction.
  - destruct (text_eqb k' k0); right; [exact H | apply IH, H].
Qed.

Lemma fold_keeps_entry (lines : list text) (k v : text) :
  (forall x, In x lines -> search x <> Some k) ->
  forall st, In (k, v) (fst st) -> In (k, v) (fst (fold_left step lines st)).
Proof.
  induction lines as [|l lines IH]; intros Hno st Hin; simpl; [exact Hin|].
  apply IH; [intros x Hx; apply Hno; right; exact Hx|].
  destruct st as [d cur]. unfold step.
  destruct (search l) as [k'|] eqn:E; simpl; [|exact Hin].
  apply dict_set_other; [|exact Hin].
  intros ->. apply (Hno l); [left; reflexivity | exact E].
Qed.

Lemma fold_gathers (seg : list text) (d : list (text * text)) (cur : list text) :
  Forall (fun x => search x = None) seg ->
  fold_left step seg (d, cur) = (d, cur ++ seg).
Proof.
  revert cur; induction seg as [|x seg IH]; intros cur H.
  - simpl. rewrite app_nil_r. reflexivity.
  - inversion H as [|? ? Hx Hs]; subst.
    change (fold_left step (x :: seg) (d, cur))
      with (fold_left step seg (step (d, cur) x)).
    assert (E : step (d, cur) x = (d, cur ++ [x]))
      by (unfold step; rewrite Hx; reflexivity).
    rewrite E, IH by exact Hs. rewrite <- app_assoc. reflexivity.
Qed.

End SeniDict.

(** The labelled extraction writes at most one unit per verse number.
    When a number comes again, the later verse takes the place of the
    earlier one: after lines that end a verse, the lines [seg] without
    marker and the line [l] that carries the marker of [k] make the unit
    of [k], provided no later line carries that marker again. *)
Theorem later_verse_replaces_earlier
        (before seg after : list text) (l k : text) :
  snd (Seni.group_verses before) = [] ->
  Forall (fun x => Seni.search x = None) seg ->
  Seni.search l = Some k ->
  (forall x, In x after -> Seni.search x <> Some k) ->
  let d := fst (Seni.group_verses (before ++ seg ++ l :: after)) in
  In (k, join [NL] (seg ++ [l])) d
  /\ NoDup (map fst d)
  /\ forall v, In (k, v) d -> v = join [NL] (seg ++ [l]).
Proof.
  intros Hb Hseg Hl Hafter. cbv zeta.
  assert (Hin : In (k, join [NL] (seg ++ [l]))
                   (fst (Seni.group_verses (before ++ seg ++ l :: after)))).
  { unfold Seni.group_verses in *. rewrite fold_left_app.
    destruct (fold_left Seni.step before ([], [])) as [d cur].
    simpl in Hb. subst cur.
    rewrite fold_left_app, (fold_gathers d [] Hseg).
    change (fold_left Seni.step (l :: after) (d, [] ++ seg))
      with (fold_left Seni.step after (Seni.step (d, [] ++ seg) l)).
    apply fold_keeps_entry; [exact Hafter|].
    assert (E : Seni.step (d, [] ++ seg) l
                = (Seni.dict_set d k (join [NL] (seg ++ [l])), []))
      by (unfold Seni.step; rewrite Hl; reflexivity).
    rewrite E. apply dict_set_in. }
  assert (Hn : NoDup (map fst (fst (Seni.group_verses
                                      (before ++ seg ++ l :: after))))).
  { apply fold_nodup. constructor. }
  split; [exact Hin|]. split; [exact Hn|].
  intros v Hv.
  set (d := fst (Seni.group_verses (before ++ seg ++ l :: after))) in *.
  clearbody d. clear -Hin Hv Hn.
  induction d as [|[k0 v0] d IH]; [contradiction|].
  simpl in Hn. inversion Hn as [|? ? Hnin Hn']; subst.
  destruct Hin as [E1 | Hin], Hv as [E2 | Hv].
  - congruence.
  - injection E1 as -> _. exfalso. apply Hnin.
    apply (in_map fst _ _ Hv).
  - injection E2 as -> _. exfalso. apply Hnin.
    apply (in_map fst _ _ Hin).
  - apply IH; assumption.
Qed.

Lemma later_verse_replaces_earlier_witness :
  Seni.extract_root_verses
    (join [NL] [T "> a || SeNi 1 ||"; T "> b"; T "> c || SeNi 1 ||"])
  = [Wrote (T "1") (join [NL] [T "b"; T "c || SeNi 1 ||"])]
  /\ In (T "1", join [NL] ([T "b"] ++ [T "c || SeNi 1 ||"]))
        (fst (Seni.group_verses
                ([T "a || SeNi 1 ||"] ++ [T "b"] ++ T "c || SeNi 1 ||" :: []))).
Proof.
  split; [reflexivity|].
  apply (@later_verse_replaces_earlier
           [T "a || SeNi 1 ||"] [T "b"] [] (T "c || SeNi 1 ||") (T "1")).
  - reflexivity.
  - repeat constructor.
  - reflexivity.
  - intros x [].
Defined.

(** The labelled extraction never writes two units with the same key. *)
Theorem labelled_keys_are_distinct (content : text) :
  NoDup (map fst (written (Seni.extract_root_verses content))).
Proof.
  assert (E : written (Seni.extract_root_verses content)
              = fst (Seni.group_verses (Seni.verse_lines content))).
  { unfold Seni.extract_root_verses.
    induction (fst (Seni.group_verses (Seni.verse_lines content)))
      as [|[k v] d IH]; simpl; [reflexivity | rewrite IH; reflexivity]. }
  rewrite E. apply fold_nodup. constructor.
Qed.

(** ** [medū.py]: numbering, warnings, preview *)

Section MeduNumbering.
Import Medu MeduReport.

Lemma written_app {K : Type} (a b : list (event K)) :
  written (a ++ b) = written a ++ written b.
Proof.
  induction a as [|e a IH]; simpl; [reflexivity|].
  destruct e; simpl; rewrite IH; reflexivity.
Qed.

Lemma root_step_written (n : nat) (log : list (event nat)) (sec : text) :
  written (snd (root_step (n, log) sec))
  = written log ++ (if has_roots sec then [(n, root_content sec)] else []).
Proof.
  unfold root_step, has_roots, nonblank, root_content.
  destruct (is_empty (strip sec)); simpl; [symmetry; apply app_nil_r|].
  destruct (root_lines_of (split_nl (strip sec))) as [|a [|b [|c l]]];
    simpl; rewrite ?written_app; simpl; try reflexivity.
  symmetry; apply app_nil_r.
Qed.

Lemma fold_root_written (secs : list text) (n : nat) (log : list (event nat)) :
  written (snd (fold_left root_step secs (n, log)))
  = written log ++ root_units n secs.
Proof.
  revert n log; induction secs as [|sec secs IH]; intros n log.
  - simpl. symmetry; apply app_nil_r.
  - change (fold_left root_step (sec :: secs) (n, log))
      with (fold_left root_step secs (root_step (n, log) sec)).
    pose proof (root_step_counter (n, log) sec) as [Hc _].
    pose proof (root_step_written n log sec) as Hw.
    destruct (root_step (n, log) sec) as [n' log']. simpl in Hc, Hw.
    rewrite IH, Hw. simpl root_units.
    destruct (has_roots sec); subst n'.
    + rewrite <- app_assoc. reflexivity.
    + rewrite app_nil_r, Nat.add_0_r. reflexivity.
Qed.

Lemma root_units_keys (secs : list text) (c : nat) :
  map fst (root_units c secs) = seq c (length (filter has_roots secs)).
Proof.
  revert c; induction secs as [|sec secs IH]; intros c; simpl; [reflexivity|].
  destruct (has_roots sec); simpl; [|apply IH].
  rewrite IH, Nat.add_1_r. reflexivity.
Qed.

Lemma root_step_flagged (n : nat) (log : list (event nat)) (sec : text) :
  exists block, snd (root_step (n, log) sec) = log ++ block
                /\ flagged_log block.
Proof.
  unfold root_step.
  destruct (is_empty (strip sec)); simpl.
  { exists []. split; [symmetry; apply app_nil_r | constructor]. }
  destruct (root_lines_of (split_nl (strip sec))) as [|a [|b [|c l]]]; simpl.
  - exists []. split; [symmetry; apply app_nil_r | constructor].
  - eexists. split; [reflexivity|].
    apply flagged_warned; [discriminate | discriminate | constructor].
  - eexists. split; [reflexivity|]. repeat constructor.
  - eexists. split; [reflexivity|].
    apply flagged_warned; [discriminate | discriminate | constructor].
Qed.

Lemma flagged_app (a b : list (event nat)) :
  flagged_log a -> flagged_log b -> flagged_log (a ++ b).
Proof. induction 1; simpl; intros Hb; try constructor; auto. Qed.

Lemma fold_root_flagged (secs : list text) (n : nat) (log : list (event nat)) :
  flagged_log log -> flagged_log (snd (fold_left root_step secs (n, log))).
Proof.
  revert n log; induction secs as [|sec secs IH]; intros n log H;
    [exact H|].
  change (fold_left root_step (sec :: secs) (n, log))
    with (fold_left root_step secs (root_step (n, log) sec)).
  destruct (root_step_flagged n log sec) as [block [E Hb]].
  destruct (root_step (n, log) sec) as [n' log']. simpl in E. subst log'.
  apply IH, flagged_app; assumption.
Qed.

End MeduNumbering.

(** The root extraction of the line-prefix dialect numbers its verses 1,
    2, 3, ... without a gap: the keys of the written units are exactly
    1..n, n the number of fragments with root lines, and n is the number
    the closing message reports. *)
Theorem root_keys_are_consecutive (content : text) :
  let n := length (filter Medu.has_roots (split_dashes content)) in
  map fst (written (Medu.extract_root_verses content)) = seq 1 n
  /\ MeduReport.root_verses_found content = n
  /\ length (written (Medu.extract_root_verses content)) = n.
Proof.
  cbv zeta. unfold Medu.extract_root_verses, MeduReport.root_verses_found.
  rewrite fold_root_written. simpl written. simpl app.
  pose proof (root_units_keys (split_dashes content) 1) as Hk.
  split; [exact Hk|]. split.
  - destruct (fold_counter Medu.root_step Medu.has_roots root_step_counter
                           (split_dashes content) (1, [])) as [-> _].
    simpl. lia.
  - rewrite <- (length_map fst), Hk. apply length_seq.
Qed.

(** A count warning of the root extraction never stands alone: it is for
    a verse whose number of root lines is neither 2 nor 0, and the write
    of that verse, under the same key, is the next event. *)
Theorem count_warning_is_followed_by_the_verse (content : text) :
  MeduReport.flagged_log (Medu.extract_root_verses content).
Proof.
  unfold Medu.extract_root_verses. apply fold_root_flagged. constructor.
Qed.

Section MeduPreview.
Import Medu MeduReport.

Lemma preview_loop_units (n : nat) (secs : list text) (c : nat) :
  map (fun p => (fst p, strip (join [NL] (snd p)))) (preview_loop n c secs)
  = firstn (Nat.max 1 (n + 1 - c)) (root_units c secs).
Proof.
  revert c; induction secs as [|sec secs IH]; intros c.
  - simpl. rewrite firstn_nil. reflexivity.
  - simpl preview_loop. simpl root_units.
    unfold has_roots, nonblank, root_content.
    destruct (is_empty (strip sec)); simpl negb; simpl andb; [apply IH|].
    destruct (root_lines_of (split_nl (strip sec))) as [|a rl] eqn:E;
      simpl is_empty_list; simpl negb; [apply IH|].
    cbn [map fst snd]. destruct (n <? c + 1) eqn:En.
    + apply Nat.ltb_lt in En.
      replace (Nat.max 1 (n + 1 - c)) with 1 by lia. reflexivity.
    + apply Nat.ltb_ge in En.
      replace (Nat.max 1 (n + 1 - c)) with (S (Nat.max 1 (n + 1 - (c + 1))))
        by lia.
      cbn [firstn]. rewrite IH. reflexivity.
Qed.

Lemma fold_commentary_written (secs : list text) (n : nat)
      (log : list (event nat)) :
  written (snd (fold_left commentary_step secs (n, log)))
  = written log ++ commentary_units n secs.
Proof.
  revert n log; induction secs as [|sec secs IH]; intros n log.
  - simpl. symmetry; apply app_nil_r.
  - change (fold_left commentary_step (sec :: secs) (n, log))
      with (fold_left commentary_step secs (commentary_step (n, log) sec)).
    simpl commentary_units. unfold commentary_step, nonblank,
      commentary_content.
    destruct (is_empty (strip sec)); simpl negb; cbv iota; [apply IH|].
    destruct (commentary_lines_of (split_nl (strip sec))) as [|a cl];
      simpl is_empty_list; cbv iota; rewrite IH; [reflexivity|].
    rewrite written_app. simpl. rewrite <- app_assoc. reflexivity.
Qed.

Lemma commentary_units_bounds (secs : list text) (c : nat) :
  Forall (fun k => c <= k < c + length (filter nonblank secs))
         (map fst (commentary_units c secs))
  /\ StronglySorted lt (map fst (commentary_units c secs))
  /\ length (commentary_units c secs) <= length (filter nonblank secs).
Proof.
  revert c; induction secs as [|sec secs IH]; intros c; simpl.
  - repeat split; constructor.
  - destruct (nonblank sec); simpl length; [|apply IH].
    destruct (IH (c + 1)) as [Hb [Hs Hl]].
    assert (Hb' : Forall (fun k => c <= k
                                   < c + S (length (filter nonblank secs)))
                         (map fst (commentary_units (c + 1) secs))).
    { eapply Forall_impl; [| exact Hb]. simpl. intros k Hk. lia. }
    destruct (is_empty_list (commentary_lines_of (split_nl (strip sec)))).
    + split; [exact Hb'|]. split; [exact Hs | lia].
    + simpl. split; [constructor; [lia | exact Hb']|].
      split; [| lia].
      constructor; [exact Hs|].
      eapply Forall_impl; [| exact Hb]. simpl. intros k Hk. lia.
Qed.

End MeduPreview.

(** The preview shows the verses the extraction writes: the verses it
    prints, their lines joined and stripped, are the first [num_verses]
    units of the root extraction, numbers and all; asked for no verse, it
    still prints the first one. *)
Theorem preview_shows_first_units (content : text) (num_verses : nat) :
  map (fun p => (fst p, strip (join [NL] (snd p))))
      (MeduReport.preview_extraction content num_verses)
  = firstn (Nat.max 1 num_verses) (written (Medu.extract_root_verses content)).
Proof.
  unfold MeduReport.preview_extraction, Medu.extract_root_verses.
  rewrite preview_loop_units, fold_root_written. simpl written. simpl app.
  replace (num_verses + 1 - 1) with num_verses by lia. reflexivity.
Qed.

(** The commentary extraction of the line-prefix dialect numbers by
    fragment: its keys grow strictly, and lie between 1 and the number of
    non-blank fragments, which is what the closing message reports as the
    number of commentaries found; the units written can be fewer. *)
Theorem commentary_keys_increase (content : text) :
  let keys := map fst (written (Medu.extract_commentary content)) in
  let n := length (filter Medu.nonblank (split_dashes content)) in
  MeduReport.commentaries_found content = n
  /\ StronglySorted lt keys
  /\ Forall (fun k => 1 <= k <= n) keys
  /\ length (written (Medu.extract_commentary content)) <= n.
Proof.
  cbv zeta. unfold Medu.extract_commentary, MeduReport.commentaries_found.
  rewrite fold_commentary_written. simpl written. simpl app.
  destruct (commentary_units_bounds (split_dashes content) 1)
    as [Hb [Hs Hl]].
  split; [| split; [exact Hs | split; [| exact Hl]]].
  - destruct (fold_counter Medu.commentary_step Medu.nonblank
                           commentary_step_counter
                           (split_dashes content) (1, [])) as [-> _].
    simpl. lia.
  - eapply Forall_impl; [| exact Hb]. simpl. intros k Hk. lia.
Qed.

(** ** [extract_ht.py] *)

Section ExtractHtFacts.
Import ExtractHt.

Lemma ht_marker_at_sound (s k rest : text) :
  marker_at s = Some (k, rest) ->
  s = marker_text k ++ rest /\ SectionHeader.all_digits k = true.
Proof.
  unfold marker_at, marker_text.
  destruct s as [|[[] [] [] [] [] [] [] []] s]; try discriminate.
  destruct s as [|[[] [] [] [] [] [] [] []] s]; try discriminate.
  destruct s as [|[[] [] [] [] [] [] [] []] s]; try discriminate.
  destruct (dropwhile is_digit s) as [|[[] [] [] [] [] [] [] []] r1] eqn:E1;
    try discriminate.
  destruct r1 as [|[[] [] [] [] [] [] [] []] r1]; try discriminate.
  destruct r1 as [|[[] [] [] [] [] [] [] []] r1]; try discriminate.
  destruct (negb (is_empty (takewhile is_digit s))) eqn:N; [|discriminate].
  intros [= <- <-]. split.
  - rewrite <- (takewhile_dropwhile is_digit s) at 1. rewrite E1.
    simpl. rewrite <- !app_assoc. reflexivity.
  - apply takewhile_nonempty_digits. apply negb_true_iff in N. exact N.
Qed.

Lemma match_here_cons (pre : text) (c : ascii) (s : text) :
  match_here pre (c :: s)
  = match marker_at (c :: s) with
    | Some (k, rest) => Some (rev pre, k, rest)
    | None => match_here (c :: pre) s
    end.
Proof. reflexivity. Qed.

Lemma match_here_sound (s pre p k rest : text) :
  match_here pre s = Some (p, k, rest) ->
  rev pre ++ s = p ++ marker_text k ++ rest
  /\ SectionHeader.all_digits k = true.
Proof.
  revert pre; induction s as [|c s IH]; intros pre.
  - simpl. discriminate.
  - rewrite match_here_cons.
    destruct (marker_at (c :: s)) as [[k' r']|] eqn:E.
    + intros [= <- <- <-]. destruct (ht_marker_at_sound _ E) as [-> Hd].
      split; [reflexivity | exact Hd].
    + intros H. apply IH in H. destruct H as [H Hd]. simpl in H.
      rewrite <- app_assoc in H. split; [exact H | exact Hd].
Qed.

(** Whether the pattern matches does not depend on what the lazy group
    holds already. *)
Lemma match_here_none_any (s pre pre' : text) :
  match_here pre s = None -> match_here pre' s = None.
Proof.
  revert pre pre'; induction s as [|c s IH]; intros pre pre'.
  - simpl. reflexivity.
  - rewrite !match_here_cons.
    destruct (marker_at (c :: s)) as [[k r]|]; [discriminate|].
    apply IH.
Qed.

(** The search never has to move on: when the pattern matches somewhere
    further on, it matches at the offset the search starts from. *)
Lemma search_from_start (s : text) (offset start : nat) (p k rest : text) :
  search_from offset s = Some (start, p, k, rest) ->
  start = offset /\ match_here [] s = Some (p, k, rest).
Proof.
  revert offset; induction s as [|c s IH]; intros offset.
  - simpl. discriminate.
  - change (search_from offset (c :: s))
      with (match match_here [] (c :: s) with
            | Some (pre, k, rest) => Some (offset, pre, k, rest)
            | None => search_from (offset + 1) s
            end).
    destruct (match_here [] (c :: s)) as [[[p' k'] r']|] eqn:E.
    + intros [= <- <- <- <-]. split; reflexivity.
    + intros H. apply IH in H. destruct H as [_ H]. exfalso.
      rewrite match_here_cons in E.
      destruct (marker_at (c :: s)) as [[k0 r0]|]; [discriminate|].
      rewrite (match_here_none_any _ _ [] E) in H. discriminate.
Qed.

Lemma ht_marker_length (k : text) : length (marker_text k) = 6 + length k.
Proof. unfold marker_text. rewrite !length_app. simpl. lia. Qed.

(** At the start of the text [last_end] is [pos], and the start of every
    match is the end of the one before: the test for an introduction
    never holds. *)
Lemma verses_loop_plain (content : text) (fuel : nat) :
  forall pos s,
    verses_loop content pos (finditer_fuel fuel pos s)
    = map (fun m => (int_of_digits (group2 m), strip (group1 m)))
          (finditer_fuel fuel pos s).
Proof.
  induction fuel as [|fuel IH]; intros pos s; simpl; [reflexivity|].
  destruct (search_from pos s) as [[[[start p] k] rest]|] eqn:E;
    [|reflexivity].
  destruct (search_from_start _ _ E) as [-> _].
  cbn [verses_loop map m_start m_end group1 group2].
  rewrite IH.
  destruct (int_of_digits k =? 1); simpl; [|reflexivity].
  destruct pos as [|pos]; reflexivity.
Qed.

Lemma finditer_fuel_tiles (fuel : nat) :
  forall pos s, length s <= fuel ->
    exists tail,
      s = concat (map group1 (finditer_fuel fuel pos s)) ++ tail
      /\ match_here [] tail = None.
Proof.
  induction fuel as [|fuel IH]; intros pos s Hn.
  - destruct s; [|simpl in Hn; lia]. exists []. split; reflexivity.
  - simpl. destruct (search_from pos s) as [[[[start p] k] rest]|] eqn:E.
    + destruct (search_from_start _ _ E) as [-> Hm].
      destruct (match_here_sound _ _ Hm) as [Hs _].
      change (rev [] ++ s) with s in Hs.
      assert (Hlt : length rest < length s).
      { rewrite Hs, !length_app, ht_marker_length. lia. }
      destruct (IH (pos + length (p ++ marker_text k)) rest) as [tail [Ht Hnone]];
        [lia|].
      exists tail. split; [|exact Hnone].
      cbn [map concat group1]. rewrite <- !app_assoc, <- Ht. exact Hs.
    + exists s. split; [reflexivity|].
      destruct s as [|c s]; [reflexivity|].
      change (search_from pos (c :: s))
        with (match match_here [] (c :: s) with
              | Some (pre, k, rest) => Some (pos, pre, k, rest)
              | None => search_from (pos + 1) s
              end) in E.
      destruct (match_here [] (c :: s)) as [[[p' k'] r']|]; [discriminate|].
      reflexivity.
Qed.

Lemma finditer_fuel_groups (fuel : nat) :
  forall pos s,
    Forall (fun m => exists pre,
                group1 m = pre ++ marker_text (group2 m)
                /\ SectionHeader.all_digits (group2 m) = true)
           (finditer_fuel fuel pos s).
Proof.
  induction fuel as [|fuel IH]; intros pos s; simpl; [constructor|].
  destruct (search_from pos s) as [[[[start p] k] rest]|] eqn:E;
    [|constructor].
  destruct (search_from_start _ _ E) as [_ Hm].
  destruct (match_here_sound _ _ Hm) as [_ Hd].
  constructor; [| apply IH].
  exists p. split; [reflexivity | exact Hd].
Qed.

End ExtractHtFacts.

(** [extract_verses] never returns an introduction: its test
    [match.start() > 0] cannot hold for the first match, since the lazy
    group takes up everything in front of the first marker.  The result
    has one entry per match, number and stripped text; the matches follow
    one another from the start of the document, so the text before the
    first marker is part of the first verse, and what is left behind the
    last match holds no marker. *)
Theorem extract_verses_has_no_intro (content : text) :
  ExtractHt.extract_verses content
  = map (fun m => (ExtractHt.int_of_digits (ExtractHt.group2 m),
                   strip (ExtractHt.group1 m)))
        (ExtractHt.finditer content)
  /\ exists tail,
       content
       = concat (map ExtractHt.group1 (ExtractHt.finditer content)) ++ tail
       /\ ExtractHt.match_here [] tail = None.
Proof.
  split.
  - apply verses_loop_plain.
  - apply finditer_fuel_tiles. apply Nat.le_refl.
Qed.

Lemma save_to_files_facts (verses commentaries : list (nat * text)) :
  let log := ExtractHt.save_to_files verses commentaries in
  ExtractHt.paired_log commentaries log
  /\ (forall n c, In (ExtractHt.WroteCommentary n c) log ->
                  exists t, In (n, t) verses)
  /\ (forall n t, In (ExtractHt.WroteVerse n t) log <->
                  In (n, t) verses /\ n <> 0)
  /\ length log = 2 * length (filter (fun v => negb (fst v =? 0)) verses).
Proof.
  cbv zeta. induction verses as [|[n t] verses [IH1 [IH2 [IH3 IH4]]]].
  - simpl. split; [constructor|]. split; [intros n c []|].
    split; [intros n t; split; [intros [] | intros [[] _]] | reflexivity].
  - simpl ExtractHt.save_to_files. simpl filter. simpl fst.
    destruct (n =? 0) eqn:E0.
    + apply Nat.eqb_eq in E0. subst n. simpl negb. cbv iota.
      split; [exact IH1|]. split; [| split; [| exact IH4]].
      * intros n c H. destruct (IH2 n c H) as [t' Ht'].
        exists t'. right; exact Ht'.
      * intros n t'. rewrite IH3. split.
        -- intros [H Hn]. split; [right; exact H | exact Hn].
        -- intros [[H | H] Hn]; [injection H as <- _; congruence|].
           split; assumption.
    + apply Nat.eqb_neq in E0. simpl negb. cbv iota.
      split; [| split; [| split]].
      * destruct (ExtractHt.dict_get commentaries n) as [c|] eqn:Ec.
        -- apply ExtractHt.paired_both; assumption.
        -- apply ExtractHt.paired_alone; assumption.
      * intros n' c' [H | [H | H]].
        -- discriminate H.
        -- destruct (ExtractHt.dict_get commentaries n); [|discriminate H].
           injection H as <- _. exists t. left; reflexivity.
        -- destruct (IH2 n' c' H) as [t' Ht']. exists t'. right; exact Ht'.
      * intros n' t'. split.
        -- intros [H | [H | H]].
           ++ injection H as <- <-. split; [left; reflexivity | exact E0].
           ++ destruct (ExtractHt.dict_get commentaries n); discriminate H.
           ++ apply IH3 in H. destruct H as [H Hn].
              split; [right; exact H | exact Hn].
        -- intros [[H | H] Hn].
           ++ injection H as <- <-. left; reflexivity.
           ++ right; right. apply IH3. split; assumption.
      * simpl length. rewrite IH4. lia.
Qed.

(** [save_to_files] writes nothing for verse number 0; every verse it
    writes is followed at once by its commentary, taken from the
    dictionary under the same number, or by the message that there is
    none; so a commentary is written only for a verse that was written,
    and as many verses are written as entries have a number other than 0. *)
Theorem commentary_only_with_its_verse
        (verses commentaries : list (nat * text)) :
  let log := ExtractHt.save_to_files verses commentaries in
  ExtractHt.paired_log commentaries log
  /\ (forall n c, In (ExtractHt.WroteCommentary n c) log ->
                  exists t, In (n, t) verses)
  /\ (forall n t, In (ExtractHt.WroteVerse n t) log <->
                  In (n, t) verses /\ n <> 0)
  /\ length log = 2 * length (filter (fun v => negb (fst v =? 0)) verses).
Proof. apply save_to_files_facts. Qed.

Lemma lstrip_keep (c : ascii) (s : text) :
  is_space c = false -> lstrip (c :: s) = c :: s.
Proof. intros H. unfold lstrip. simpl. rewrite H. reflexivity. Qed.

Lemma rstrip_keep_last (s : text) (c : ascii) :
  is_space c = false -> rstrip (s ++ [c]) = s ++ [c].
Proof.
  intros H. unfold rstrip. rewrite rev_app_distr. simpl. rewrite H.
  change (c :: rev s) with (rev [c] ++ rev s).
  rewrite <- rev_app_distr. apply rev_involutive.
Qed.

(** Stripping a text that ends with a marker leaves the marker at its
    end. *)
Lemma strip_keeps_marker (pre k : text) :
  exists a, strip (pre ++ ExtractHt.marker_text k)
            = a ++ ExtractHt.marker_text k.
Proof.
  assert (Hm : ExtractHt.marker_text k
               = "|"%char :: ("|"%char :: " "%char :: k ++ [" "%char; "|"%char])
                          ++ ["|"%char]).
  { unfold ExtractHt.marker_text. simpl. rewrite <- !app_assoc. reflexivity. }
  assert (Hl : exists a, lstrip (pre ++ ExtractHt.marker_text k)
                         = a ++ ExtractHt.marker_text k).
  { unfold lstrip. rewrite dropwhile_app.
    destruct (forallb is_space pre).
    - exists []. rewrite Hm. reflexivity.
    - exists (dropwhile is_space pre). reflexivity. }
  destruct Hl as [a Ha]. exists a. unfold strip. rewrite Ha.
  rewrite Hm at 1. rewrite app_comm_cons, app_assoc.
  rewrite rstrip_keep_last by reflexivity.
  rewrite <- app_assoc, <- app_comm_cons, <- Hm. reflexivity.
Qed.

(** Run on a root file, [main] writes for every marker [|| N ||] with
    N other than 0 one verse file: its number is the number the marker
    shows, and its content ends with that marker as it stands in the
    document. *)
Theorem verse_file_ends_with_its_marker
        (content : text) (commentaries : list (nat * text)) :
  Forall (fun e => match e with
                   | ExtractHt.WroteVerse n t =>
                       n <> 0
                       /\ exists a ds,
                            t = a ++ T "|| " ++ ds ++ T " ||"
                            /\ SectionHeader.all_digits ds = true
                            /\ ExtractHt.int_of_digits ds = n
                   | _ => True
                   end)
         (ExtractHt.main content commentaries).
Proof.
  apply Forall_forall. intros e He. destruct e as [n t | n c | n]; auto.
  unfold ExtractHt.main in He.
  apply (proj1 (proj2 (proj2 (save_to_files_facts
                                (ExtractHt.extract_verses content)
                                commentaries)))) in He.
  destruct He as [Hin Hn]. split; [exact Hn|].
  unfold ExtractHt.extract_verses, ExtractHt.finditer in Hin.
  rewrite verses_loop_plain in Hin.
  fold (ExtractHt.finditer content) in Hin.
  apply in_map_iff in Hin. destruct Hin as [m [Hm Hin]].
  injection Hm as <- <-.
  pose proof (finditer_fuel_groups (length content) 0 content) as Hg.
  fold (ExtractHt.finditer content) in Hg.
  rewrite Forall_forall in Hg. destruct (Hg _ Hin) as [pre [Hg1 Hd]].
  rewrite Hg1. destruct (strip_keeps_marker pre (ExtractHt.group2 m)) as [a Ha].
  exists a, (ExtractHt.group2 m). split; [exact Ha|].
  split; [exact Hd | reflexivity].
Qed.

(** ** [seni_extract.py]: no root line in a commentary *)

Section LinesOfText.

Lemma split_nl_aux_head (s cur : text) :
  split_nl_aux cur s
  = match split_nl s with
    | h :: t => (rev cur ++ h) :: t
    | [] => []
    end.
Proof.
  unfold split_nl. revert cur; induction s as [|c s IH]; intros cur; simpl.
  - rewrite app_nil_r. reflexivity.
  - destruct (Ascii.eqb c NL).
    + rewrite app_nil_r. reflexivity.
    + rewrite (IH (c :: cur)), (IH [c]).
      destruct (split_nl_aux [] s) as [|h t]; [reflexivity|].
      simpl. rewrite <- app_assoc. reflexivity.
Qed.

Lemma split_nl_nil : split_nl [] = [[]].
Proof. reflexivity. Qed.

Lemma split_nl_newline (s : text) : split_nl (NL :: s) = [] :: split_nl s.
Proof. reflexivity. Qed.

Lemma split_nl_char (c : ascii) (s : text) :
  Ascii.eqb c NL = false ->
  split_nl (c :: s)
  = match split_nl s with
    | h :: t => (c :: h) :: t
    | [] => []
    end.
Proof.
  intros H. unfold split_nl at 1. simpl. rewrite H.
  rewrite split_nl_aux_head. reflexivity.
Qed.

Lemma split_nl_nonempty (s : text) : split_nl s <> [].
Proof. apply split_nl_aux_nonempty. Qed.

(** No line of [split('\n')] holds a newline. *)
Lemma split_nl_no_newline (s : text) :
  Forall (fun l => forallb (fun c => negb (Ascii.eqb c NL)) l = true)
         (split_nl s).
Proof.
  induction s as [|c s IH].
  - repeat constructor.
  - destruct (Ascii.eqb c NL) eqn:E.
    + apply ascii_eqb_true in E. subst c. rewrite split_nl_newline.
      constructor; [reflexivity | exact IH].
    + rewrite (@split_nl_char c s E).
      destruct (split_nl s) as [|h t]; [constructor|].
      inversion IH; subst. constructor; [|assumption].
      simpl. rewrite E. simpl. assumption.
Qed.

(** Lines without newline, joined and split again, are the same lines. *)
Lemma split_nl_of_join (ls : list text) :
  ls <> [] ->
  Forall (fun l => forallb (fun c => negb (Ascii.eqb c NL)) l = true) ls ->
  split_nl (join [NL] ls) = ls.
Proof.
  induction ls as [|l ls IH]; [congruence|]. intros _ H.
  inversion H as [|? ? Hl Hls]; subst.
  assert (Hline : forall r, split_nl (l ++ NL :: r) = l :: split_nl r
                            /\ split_nl l = [l]).
  { clear -Hl. induction l as [|c l IHl]; intros r.
    - split; reflexivity.
    - simpl in Hl. apply andb_true_iff in Hl. destruct Hl as [Hc Hl].
      apply negb_true_iff in Hc. destruct (IHl Hl r) as [E1 E2].
      simpl app. rewrite !(@split_nl_char c _ Hc), E1, E2. split; reflexivity. }
  destruct ls as [|l' ls].
  - simpl. apply (proj2 (Hline [])).
  - rewrite join_cons by discriminate.
    change ([NL] ++ join [NL] (l' :: ls)) with (NL :: join [NL] (l' :: ls)).
    rewrite (proj1 (Hline _)). rewrite IH; [reflexivity | discriminate |].
    exact Hls.
Qed.

(** The lines of a text without its leading newlines are lines of the
    text. *)
Lemma lstrip_nl_lines (s : text) :
  incl (split_nl (lstrip_nl s)) (split_nl s).
Proof.
  induction s as [|c s IH]; [apply incl_refl|].
  change (lstrip_nl (c :: s))
    with (if Ascii.eqb NL c then lstrip_nl s else c :: s).
  destruct (Ascii.eqb NL c) eqn:E.
  - apply ascii_eqb_true in E. subst c. rewrite split_nl_newline.
    apply incl_tl. exact IH.
  - apply incl_refl.
Qed.

(** The first line of a text is at its front. *)
Lemma first_line_prefix (s h : text) (t : list text) :
  split_nl s = h :: t -> exists r, s = h ++ r.
Proof.
  intros H. pose proof (split_nl_join s) as E. rewrite H in E.
  destruct (join_starts [NL] h t) as [b Hb]. exists b. congruence.
Qed.

(** The lines of [a ++ b]: those of [a], the last of them continued by
    the first line of [b], then the other lines of [b]. *)
Lemma split_nl_concat (a b : text) :
  split_nl (a ++ b)
  = removelast (split_nl a)
    ++ (last (split_nl a) [] ++ hd [] (split_nl b)) :: tl (split_nl b).
Proof.
  induction a as [|c a IH].
  - change (split_nl ([] ++ b)) with (split_nl b).
    change (split_nl []) with [@nil ascii].
    cbn [removelast last app].
    destruct (split_nl b) as [|h t] eqn:E; [|reflexivity].
    exfalso. exact (split_nl_nonempty b E).
  - destruct (Ascii.eqb c NL) eqn:Ec.
    + apply ascii_eqb_true in Ec. subst c.
      change (split_nl ((NL :: a) ++ b)) with (split_nl (NL :: a ++ b)).
      rewrite !split_nl_newline, IH.
      pose proof (split_nl_nonempty a) as Hne.
      destruct (split_nl a) as [|h t]; [congruence|]. reflexivity.
    + change (split_nl ((c :: a) ++ b)) with (split_nl (c :: a ++ b)).
      rewrite !(@split_nl_char c _ Ec), IH.
      pose proof (split_nl_nonempty a) as Hne.
      destruct (split_nl a) as [|h t]; [congruence|].
      destruct t as [|h' t]; reflexivity.
Qed.

(** A line of the text with white space cut off its end is a line of the
    text, but for white space at its end. *)
Lemma rstrip_lines (s l : text) :
  In l (split_nl (rstrip s)) ->
  exists w, In (l ++ w) (split_nl s) /\ forallb is_space w = true.
Proof.
  intros Hl. pose proof (rstrip_split s) as Hs.
  set (ws := rev (takewhile is_space (rev s))) in *.
  assert (Hws : forallb is_space ws = true)
    by (unfold ws; rewrite forallb_rev; apply takewhile_all).
  rewrite Hs, split_nl_concat.
  pose proof (split_nl_nonempty (rstrip s)) as Hne.
  destruct (split_nl ws) as [|h t] eqn:Ew;
    [exfalso; exact (split_nl_nonempty ws Ew)|].
  destruct (first_line_prefix _ Ew) as [r Hr].
  assert (Hh : forallb is_space h = true).
  { rewrite Hr, forallb_app in Hws. apply andb_true_iff in Hws. tauto. }
  simpl hd. simpl tl.
  destruct (exists_last Hne) as [init [lst E]]. rewrite E in *.
  rewrite removelast_last, last_last.
  apply in_app_or in Hl. destruct Hl as [Hl | [<- | []]].
  - exists []. rewrite app_nil_r. split; [|reflexivity].
    apply in_or_app. left; exact Hl.
  - exists h. split; [|exact Hh].
    apply in_or_app. right; left; reflexivity.
Qed.

End LinesOfText.

(** No commentary [seni_extract.py] writes holds a root line: no line of a
    written commentary starts with [>] once stripped. *)
Theorem commentary_has_no_root_line (content : text) :
  Forall (fun kc =>
            Forall (fun l => startswith (T ">") (strip l) = false)
                   (split_nl (snd kc)))
         (written (Seni.extract_commentary_sections content)).
Proof.
  apply Forall_written_map. intros [k body] _.
  unfold Seni.emit. simpl fst. simpl snd. cbv zeta.
  destruct (is_empty (strip (SectionHeader.trim_section
                               (Seni.remove_root_lines body)))) eqn:Eb;
    [exact I|].
  apply is_empty_false in Eb. apply Forall_forall. intros l Hl.
  unfold SectionHeader.trim_section in Hl.
  destruct (rstrip_lines _ _ Hl) as [w [Hin Hw]].
  apply lstrip_nl_lines in Hin. unfold Seni.remove_root_lines in Hin, Eb.
  set (kept := filter (fun line => negb (startswith (T ">") (strip line)))
                      (split_nl body)) in *.
  assert (Hkept : kept <> []).
  { intros E. rewrite E in Eb. apply Eb. reflexivity. }
  rewrite split_nl_of_join in Hin.
  - unfold kept in Hin. apply filter_In in Hin. destruct Hin as [_ Hin].
    apply negb_true_iff in Hin.
    rewrite (strip_app_space_r _ _ Hw) in Hin. exact Hin.
  - exact Hkept.
  - unfold kept. apply Forall_forall. intros x Hx.
    apply filter_In in Hx. destruct Hx as [Hx _].
    pose proof (split_nl_no_newline body) as Hn.
    rewrite Forall_forall in Hn. apply Hn, Hx.
Qed.

(** ** [bca_root_extract.py]: the alternative method *)

Section AlternativeMethod.
Import BcaRoot BcaRootAlt.

Lemma re_split_fuel_parts (n : nat) (s : text) :
  exists tail, re_split_fuel n s = parts_of (findall_fuel n s) tail.
Proof.
  revert s; induction n as [|n IH]; intros s; simpl.
  - exists s. reflexivity.
  - destruct (find_marker [] s) as [[[p k] rest]|].
    + destruct (IH rest) as [tail ->]. exists tail. reflexivity.
    + exists s. reflexivity.
Qed.

Lemma last_parts_of (ms : list (text * text)) (tail : text) :
  last (parts_of ms tail) [] = tail.
Proof.
  induction ms as [|[p k] ms IH]; [reflexivity|].
  change (parts_of ((p, k) :: ms) tail) with (p :: k :: parts_of ms tail).
  destruct (parts_of ms tail) as [|x l] eqn:E.
  - destruct ms as [|[p' k'] ms]; discriminate E.
  - exact IH.
Qed.

Lemma re_split_parts (content : text) :
  re_split content = parts_of (findall content) (last (re_split content) []).
Proof.
  unfold re_split, findall.
  destruct (re_split_fuel_parts (length content) content) as [tail E].
  rewrite E at 2. rewrite last_parts_of. exact E.
Qed.

Lemma digit_not_space (c : ascii) : is_digit c = true -> is_space c = false.
Proof.
  destruct c as [[] [] [] [] [] [] [] []]; intros H;
    first [reflexivity | discriminate H].
Qed.

Lemma strip_keep_ends (c1 c2 : ascii) (s : text) :
  is_space c1 = false -> is_space c2 = false ->
  strip (c1 :: s ++ [c2]) = c1 :: s ++ [c2].
Proof.
  intros H1 H2. unfold strip. rewrite (@lstrip_keep c1 _ H1).
  rewrite app_comm_cons. apply rstrip_keep_last, H2.
Qed.

(** A key [digits.digits] is its own stripped form and passes the test of
    the loop. *)
Lemma key_is_verse_number (d1 d2 : text) :
  SectionHeader.all_digits d1 = true ->
  SectionHeader.all_digits d2 = true ->
  strip (d1 ++ "."%char :: d2) = d1 ++ "."%char :: d2
  /\ is_verse_number (d1 ++ "."%char :: d2) = true
  /\ d1 ++ "."%char :: d2 <> [].
Proof.
  intros H1 H2. pose proof H2 as H2'.
  apply all_digits_split in H1, H2. destruct H1 as [N1 F1], H2 as [N2 F2].
  split; [| split].
  - destruct d1 as [|c1 d1]; [congruence|].
    destruct (exists_last N2) as [d2' [c2 ->]].
    simpl in F1. apply andb_true_iff in F1. destruct F1 as [Fc1 _].
    rewrite forallb_app in F2. apply andb_true_iff in F2.
    destruct F2 as [_ Fc2]. simpl in Fc2. rewrite andb_true_r in Fc2.
    replace ((c1 :: d1) ++ "."%char :: d2' ++ [c2])
      with (c1 :: (d1 ++ "."%char :: d2') ++ [c2])
      by (simpl; rewrite <- app_assoc; reflexivity).
    apply strip_keep_ends; apply digit_not_space; assumption.
  - unfold is_verse_number.
    destruct (takewhile_app_stop is_digit d1 "."%char d2 F1 eq_refl)
      as [-> ->].
    rewrite H2'. destruct d1; [congruence | reflexivity].
  - destruct d1; discriminate.
Qed.

Lemma save_unit (t k : text) : k <> [] -> save t k = unit_of t k.
Proof.
  intros Hk. unfold save, unit_of.
  destruct k; [congruence|]. destruct t; reflexivity.
Qed.

Lemma step_text (st : state) (part : text) :
  is_verse_number (strip part) = false ->
  step st part
  = mkState (index st + 1)
            (if 0 <? index st then part else current_verse st)
            (current_number st) (log st).
Proof. intros H. unfold step. rewrite H. reflexivity. Qed.

Lemma step_key (st : state) (k : text) :
  key_ok k ->
  step st k
  = mkState (index st + 1) [] k
            (log st ++ save (current_verse st) (current_number st)).
Proof.
  intros [d1 [d2 [-> [H1 H2]]]].
  destruct (@key_is_verse_number d1 d2 H1 H2) as [Hs [Hn _]].
  unfold step. rewrite Hs, Hn. reflexivity.
Qed.

Lemma key_ok_nonempty (k : text) : key_ok k -> k <> [].
Proof.
  intros [d1 [d2 [-> [H1 H2]]]]. apply (@key_is_verse_number d1 d2 H1 H2).
Qed.

(** Behind a number the loop hands every text to the number before it. *)
Lemma follow_loop (ms : list (text * text)) (tail : text) :
  Forall (fun m => is_verse_number (strip (fst m)) = false /\ key_ok (snd m))
         ms ->
  is_verse_number (strip tail) = false ->
  forall i k lg, 0 < i -> k <> [] ->
    let st := fold_left step (parts_of ms tail) (mkState i [] k lg) in
    log st ++ save (current_verse st) (current_number st)
    = lg ++ follow k ms tail.
Proof.
  intros Hms Htail. induction ms as [|[pre k'] ms IH]; intros i k lg Hi Hk.
  - simpl parts_of. simpl fold_left. rewrite (step_text _ _ Htail).
    cbn [index current_verse current_number log].
    apply Nat.ltb_lt in Hi. rewrite Hi.
    rewrite (save_unit _ Hk). reflexivity.
  - inversion Hms as [|? ? [Hpre Hk'] Hms']; subst. simpl in Hpre, Hk'.
    change (parts_of ((pre, k') :: ms) tail)
      with (pre :: k' :: parts_of ms tail).
    cbn [fold_left]. rewrite (step_text _ _ Hpre).
    cbn [index current_verse current_number log].
    rewrite (step_key _ Hk').
    cbn [index current_verse current_number log].
    pose proof Hi as Hi'. apply Nat.ltb_lt in Hi'. rewrite Hi'.
    rewrite (save_unit _ Hk).
    rewrite (IH Hms' (i + 1 + 1) k' (lg ++ unit_of pre k));
      [| lia | apply key_ok_nonempty, Hk'].
    cbn [follow]. rewrite <- app_assoc. reflexivity.
Qed.

Lemma findall_keys_ok (content : text) :
  Forall (fun m => key_ok (snd m)) (findall content).
Proof. apply findall_fuel_keys. Qed.

End AlternativeMethod.

(** In a document none of whose texts between markers looks like a
    verse number, the alternative method writes every number with the
    text that follows its marker: the number of a match with the text of
    the next match, the last number with the text behind the last
    marker.  The text in front of the first marker is never written. *)
Theorem alternative_method_shifts_texts (content : text) :
  Forall (fun m => BcaRootAlt.is_verse_number (strip (fst m)) = false)
         (BcaRoot.findall content) ->
  BcaRootAlt.is_verse_number (strip (last (BcaRootAlt.re_split content) []))
  = false ->
  BcaRootAlt.extract_verses_alternative_method content
  = BcaRootAlt.shifted (BcaRoot.findall content)
                       (last (BcaRootAlt.re_split content) []).
Proof.
  intros Hms Htail.
  unfold BcaRootAlt.extract_verses_alternative_method. cbv zeta.
  rewrite (re_split_parts content) at 1 2 3.
  set (tail := last (BcaRootAlt.re_split content) []) in *.
  pose proof (findall_keys_ok content) as Hk.
  destruct (BcaRoot.findall content) as [|[pre1 k1] ms].
  - simpl BcaRootAlt.parts_of. unfold SectionHeader.drop_blank_head.
    destruct (is_empty (strip tail)); [reflexivity|].
    simpl fold_left. rewrite (step_text _ _ Htail). reflexivity.
  - inversion Hms as [|? ? Hpre1 Hms']; subst. simpl in Hpre1.
    inversion Hk as [|? ? Hk1 Hk']; subst. simpl in Hk1.
    assert (Hboth : Forall (fun m =>
                              BcaRootAlt.is_verse_number (strip (fst m))
                              = false /\ BcaRootAlt.key_ok (snd m)) ms).
    { clear -Hms' Hk'. induction ms as [|m ms IH]; [constructor|].
      inversion Hms'; inversion Hk'; subst. constructor; auto. }
    change (BcaRootAlt.parts_of ((pre1, k1) :: ms) tail)
      with (pre1 :: k1 :: BcaRootAlt.parts_of ms tail).
    unfold SectionHeader.drop_blank_head.
    cbn [BcaRootAlt.shifted].
    destruct (is_empty (strip pre1)).
    + cbn [fold_left]. rewrite (step_key _ Hk1).
      cbn [BcaRootAlt.index BcaRootAlt.current_verse
           BcaRootAlt.current_number BcaRootAlt.log].
      match goal with
      | |- context [fold_left _ _ (BcaRootAlt.mkState ?i [] ?k ?lg)] =>
          pose proof (@follow_loop ms tail Hboth Htail i k lg) as E
      end.
      cbv zeta in E.
      rewrite E; [reflexivity | simpl; lia | apply key_ok_nonempty, Hk1].
    + cbn [fold_left]. rewrite (step_text _ _ Hpre1).
      cbn [BcaRootAlt.index BcaRootAlt.current_verse
           BcaRootAlt.current_number BcaRootAlt.log].
      rewrite (step_key _ Hk1).
      cbn [BcaRootAlt.index BcaRootAlt.current_verse
           BcaRootAlt.current_number BcaRootAlt.log].
      match goal with
      | |- context [fold_left _ _ (BcaRootAlt.mkState ?i [] ?k ?lg)] =>
          pose proof (@follow_loop ms tail Hboth Htail i k lg) as E
      end.
      cbv zeta in E.
      rewrite E; [reflexivity | simpl; lia | apply key_ok_nonempty, Hk1].
Qed.

Lemma alternative_method_shifts_texts_witness :
  let doc := T "A || 1.1 || B || 1.2 || C" in
  BcaRoot.findall doc = [(T "A ", T "1.1"); (T " B ", T "1.2")]
  /\ last (BcaRootAlt.re_split doc) [] = T " C"
  /\ BcaRootAlt.extract_verses_alternative_method doc
     = [Wrote (T "1.1") (T "B || 1.1 ||"); Wrote (T "1.2") (T "C || 1.2 ||")]
  /\ BcaRootAlt.extract_verses_alternative_method doc
     = BcaRootAlt.shifted (BcaRoot.findall doc)
                          (last (BcaRootAlt.re_split doc) []).
Proof.
  split; [reflexivity|]. split; [reflexivity|]. split; [reflexivity|].
  apply (alternative_method_shifts_texts (T "A || 1.1 || B || 1.2 || C")).
  - repeat constructor.
  - reflexivity.
Defined.

(** ** [medū.py]: the key of a fragment in each extraction *)

(** For a fragment with root lines and commentary lines, the verse is
    written under one more than the number of fragments with root lines
    before it, and the commentary under one more than the number of
    non-blank fragments before it: the two keys are the same exactly when
    every non-blank fragment before it has root lines. *)
Theorem fragment_keys_by_position
        (content : text) (before after : list text) (section : text) :
  split_dashes content = before ++ section :: after ->
  Medu.has_roots section = true ->
  Medu.commentary_lines_of (split_nl (strip section)) <> [] ->
  let kr := 1 + length (filter Medu.has_roots before) in
  let kc := 1 + length (filter Medu.nonblank before) in
  In (Wrote kr (MeduReport.root_content section))
     (Medu.extract_root_verses content)
  /\ In (Wrote kc (MeduReport.commentary_content section))
        (Medu.extract_commentary content)
  /\ (kr = kc <->
      forall s, In s before -> Medu.nonblank s = true ->
                Medu.has_roots s = true).
Proof.
  intros Hs Hr Hc. cbv zeta.
  destruct (fragment_keys before after section Hr Hc) as [H1 H2].
  unfold Medu.extract_root_verses, Medu.extract_commentary. rewrite Hs.
  split; [exact H1|]. split; [exact H2|].
  clear. induction before as [|s before IH]; simpl.
  - split; [intros _ s [] | reflexivity].
  - unfold Medu.has_roots at 1. destruct (Medu.nonblank s) eqn:En; simpl.
    + destruct (negb (is_empty_list
                        (Medu.root_lines_of (split_nl (strip s))))) eqn:Er;
        simpl.
      * split.
        -- intros E s' [<- | Hin] Hn.
           ++ unfold Medu.has_roots. rewrite En, Er. reflexivity.
           ++ apply IH; [lia | exact Hin | exact Hn].
        -- intros H. f_equal. f_equal.
           assert (E : 1 + length (filter Medu.has_roots before)
                       = 1 + length (filter Medu.nonblank before)).
           { apply IH. intros s' Hin Hn. apply H; [right; exact Hin | exact Hn]. }
           lia.
      * split.
        -- intros E. exfalso.
           assert (Hle : length (filter Medu.has_roots before)
                         <= length (filter Medu.nonblank before)).
           { clear. induction before as [|x l IHl]; simpl; [lia|].
             unfold Medu.has_roots at 1.
             destruct (Medu.nonblank x); simpl; [|exact IHl].
             destruct (negb (is_empty_list
                               (Medu.root_lines_of (split_nl (strip x)))));
               simpl; lia. }
           lia.
        -- intros H. exfalso.
           assert (Hx : Medu.has_roots s = true)
             by (apply H; [left; reflexivity | exact En]).
           unfold Medu.has_roots in Hx. rewrite En, Er in Hx. discriminate.
    + split.
      * intros E s' [<- | Hin] Hn; [congruence|].
        apply IH; [exact E | exact Hin | exact Hn].
      * intros H. apply IH. intros s' Hin Hn.
        apply H; [right; exact Hin | exact Hn].
Qed.

Lemma fragment_keys_by_position_witness :
  let doc := join [NL] [T "intro"; T "---"; T ">a"; T ">b"; T "note"] in
  split_dashes doc = [T "intro" ++ [NL]] ++ (NL :: join [NL] [T ">a"; T ">b"; T "note"]) :: []
  /\ In (Wrote 1 (join [NL] [T "a"; T "b"])) (Medu.extract_root_verses doc)
  /\ In (Wrote 2 (T "note")) (Medu.extract_commentary doc).
Proof.
  split; [reflexivity|].
  pose proof (@fragment_keys_by_position
                (join [NL] [T "intro"; T "---"; T ">a"; T ">b"; T "note"])
                [T "intro" ++ [NL]] []
                (NL :: join [NL] [T ">a"; T ">b"; T "note"])
                eq_refl eq_refl) as H.
  cbv zeta in H.
  assert (Hc : Medu.commentary_lines_of
                 (split_nl (strip (NL :: join [NL] [T ">a"; T ">b"; T "note"])))
               <> []) by (vm_compute; discriminate).
  destruct (H Hc) as [H1 [H2 _]]. split; [exact H1 | exact H2].
Defined.

(** * Saved units: reading them again, and what they keep of the document *)

(** ** The verse-end dialect: reading a saved unit again *)

Section Reextract.

(** The first marker of a text is found where it stands when no marker
    starts before it. *)
Lemma find_marker_first (p s k rest : text) :
  BcaRoot.marker_at s = Some (k, rest) ->
  forall acc,
    (forall i, i < length p -> BcaRoot.marker_at (skipn i (p ++ s)) = None) ->
    BcaRoot.find_marker acc (p ++ s) = Some (rev acc ++ p, k, rest).
Proof.
  intros Hm. induction p as [|c p IH]; intros acc Hno.
  - rewrite app_nil_r. simpl app.
    destruct s as [|c s]; [discriminate Hm|].
    rewrite find_marker_cons, Hm. reflexivity.
  - change ((c :: p) ++ s) with (c :: p ++ s).
    rewrite find_marker_cons.
    pose proof (Hno 0 (Nat.lt_0_succ _)) as H0.
    change (skipn 0 ((c :: p) ++ s)) with (c :: p ++ s) in H0.
    rewrite H0, IH.
    + simpl rev. rewrite <- app_assoc. reflexivity.
    + intros i Hi. apply (Hno (S i)). simpl. lia.
Qed.

Lemma findall_fuel_nil (n : nat) : BcaRoot.findall_fuel n [] = [].
Proof. destruct n; reflexivity. Qed.

Lemma strip_idem (s : text) : strip (strip s) = strip s.
Proof.
  destruct (strip_split s) as [pre [post [E [Hpre Hpost]]]].
  symmetry. apply trimmed_strip_eq. exists pre, post. auto.
Qed.

Lemma lstrip_nl_strip (s : text) : lstrip_nl (strip s) = strip s.
Proof.
  destruct (strip s) as [|c r] eqn:E; [reflexivity|].
  assert (Hc : is_space c = false).
  { unfold strip in E.
    assert (Hl : exists r', lstrip s = c :: r').
    { pose proof (rstrip_split (lstrip s)) as H. rewrite E in H.
      simpl in H. eexists. exact H. }
    destruct Hl as [r' Hl]. unfold lstrip in Hl.
    apply (dropwhile_head _ _ Hl). }
  unfold lstrip_nl.
  change (dropwhile (Ascii.eqb NL) (c :: r))
    with (if Ascii.eqb NL c then dropwhile (Ascii.eqb NL) r else c :: r).
  destruct (Ascii.eqb NL c) eqn:En; [|reflexivity].
  apply ascii_eqb_true in En. subst c. discriminate Hc.
Qed.

Lemma bca_root_reextract (content k c : text) :
  In (k, c) (written (BcaRoot.extract_verse_sections content)) ->
  (forall i, i < length c - length (BcaRoot.marker_text k) ->
             BcaRoot.marker_at (skipn i c) = None) ->
  BcaRoot.extract_verse_sections c = [Wrote k c].
Proof.
  intros H Hno. apply bca_root_written in H.
  destruct H as [pre [Hin [Hc Hne]]].
  pose proof (findall_fuel_keys (length content) content) as Hk.
  rewrite Forall_forall in Hk. destruct (Hk _ Hin) as [d1 [d2 [Ek [D1 D2]]]].
  simpl in Ek. rewrite lstrip_nl_strip in Hc, Hne. rewrite strip_idem in Hne.
  set (t := strip pre) in *.
  assert (Ec : c = (t ++ T " ") ++ BcaRoot.marker_text k ++ []).
  { rewrite Hc. unfold BcaRoot.closing, BcaRoot.marker_text.
    rewrite app_nil_r, <- !app_assoc. reflexivity. }
  assert (Hm : BcaRoot.marker_at (BcaRoot.marker_text k ++ []) = Some (k, [])).
  { rewrite Ek. apply marker_at_complete; assumption. }
  assert (Hf : BcaRoot.find_marker [] c = Some (t ++ T " ", k, [])).
  { rewrite Ec. apply (@find_marker_first (t ++ T " ") _ _ _ Hm []).
    intros i Hi. rewrite <- Ec. apply Hno.
    rewrite Ec at 1. rewrite app_nil_r, length_app. lia. }
  unfold BcaRoot.extract_verse_sections, BcaRoot.findall.
  destruct (length c) as [|n] eqn:El.
  { destruct c; [discriminate Hf | discriminate El]. }
  cbn [BcaRoot.findall_fuel]. rewrite Hf, findall_fuel_nil.
  cbn [map fst snd]. unfold BcaRoot.emit.
  rewrite (@strip_app_space_r t (T " ") eq_refl).
  unfold t at 1 2. rewrite strip_idem, lstrip_nl_strip, strip_idem.
  fold t. destruct (is_empty t) eqn:Et.
  - apply is_empty_true in Et. contradiction.
  - rewrite <- Hc. reflexivity.
Qed.

End Reextract.

Section SeniRuns.
Import Seni.

Lemma verse_run_more (done : list text) (x : text) (kv : text * text) :
  verse_run done kv -> verse_run (done ++ [x]) kv.
Proof.
  intros [a [seg [l [b [E H]]]]]. exists a, seg, l, (b ++ [x]).
  split; [|exact H]. rewrite E, <- !app_assoc. reflexivity.
Qed.

(** The loop keeps in [current_verse] the lines read since the last
    marker, and every entry of [verses_dict] is a run of the lines read. *)
Lemma step_runs (done : list text) (st : list (text * text) * list text)
      (x : text) :
  (exists a, done = a ++ snd st) ->
  Forall (fun y => search y = None) (snd st) ->
  Forall (verse_run done) (fst st) ->
  (exists a, done ++ [x] = a ++ snd (step st x))
  /\ Forall (fun y => search y = None) (snd (step st x))
  /\ Forall (verse_run (done ++ [x])) (fst (step st x)).
Proof.
  destruct st as [d cur]. simpl. intros [a Ha] Hcur Hd.
  assert (Hd' : Forall (verse_run (done ++ [x])) d).
  { eapply Forall_impl; [| exact Hd]. intros kv. apply verse_run_more. }
  unfold step. destruct (search x) as [k|] eqn:E; simpl.
  - split; [exists (done ++ [x]); symmetry; apply app_nil_r|].
    split; [constructor|].
    apply dict_set_Forall; [exact Hd'|].
    exists a, cur, x, []. simpl.
    split; [rewrite Ha, <- app_assoc; reflexivity|].
    split; [reflexivity|]. split; assumption.
  - split; [exists a; rewrite Ha, <- app_assoc; reflexivity|].
    split; [|exact Hd'].
    apply Forall_app. split; [exact Hcur|]. constructor; [exact E|constructor].
Qed.

Lemma fold_runs (todo : list text) :
  forall (done : list text) (st : list (text * text) * list text),
    (exists a, done = a ++ snd st) ->
    Forall (fun y => search y = None) (snd st) ->
    Forall (verse_run done) (fst st) ->
    Forall (verse_run (done ++ todo)) (fst (fold_left step todo st)).
Proof.
  induction todo as [|x todo IH]; intros done st Ha Hcur Hd.
  - rewrite app_nil_r. exact Hd.
  - destruct (@step_runs done st x Ha Hcur Hd) as [Ha' [Hcur' Hd']].
    change (fold_left step (x :: todo) st)
      with (fold_left step todo (step st x)).
    replace (done ++ x :: todo) with ((done ++ [x]) ++ todo)
      by (rewrite <- app_assoc; reflexivity).
    apply IH; assumption.
Qed.

Lemma verses_are_runs (lines : list text) :
  Forall (verse_run lines) (fst (group_verses lines)).
Proof.
  apply (@fold_runs lines [] ([], [])).
  - exists []. reflexivity.
  - constructor.
  - constructor.
Qed.

Lemma forallb_strip (q : ascii -> bool) (s : text) :
  forallb q s = true -> forallb q (strip s) = true.
Proof.
  destruct (strip_split s) as [pre [post [E _]]]. intros H.
  rewrite E, !forallb_app in H.
  apply andb_true_iff in H. destruct H as [_ H].
  apply andb_true_iff in H. tauto.
Qed.

Lemma forallb_tl (q : ascii -> bool) (s : text) :
  forallb q s = true -> forallb q (tl s) = true.
Proof.
  destruct s as [|c s]; simpl; [auto|]. intros H.
  apply andb_true_iff in H. tauto.
Qed.

(** A line of a root unit has no white space at its ends and holds no
    newline. *)
Lemma verse_lines_clean (content : text) :
  Forall (fun l => strip l = l
                   /\ forallb (fun c => negb (Ascii.eqb c NL)) l = true)
         (verse_lines content).
Proof.
  unfold verse_lines. apply Forall_forall. intros l Hl.
  apply in_map_iff in Hl. destruct Hl as [x [<- Hx]].
  apply filter_In in Hx. destruct Hx as [Hx _].
  split; [apply strip_idem|].
  apply forallb_strip, forallb_tl, forallb_strip.
  pose proof (split_nl_no_newline content) as Hn.
  rewrite Forall_forall in Hn. apply Hn, Hx.
Qed.

Lemma strip_cons_keep (c : ascii) (l : text) :
  is_space c = false -> strip l = l -> strip (c :: l) = c :: l.
Proof.
  intros Hc Hl. unfold strip. rewrite (@lstrip_keep c l Hc).
  pose proof (rstrip_split (c :: l)) as E.
  set (ws := rev (takewhile is_space (rev (c :: l)))) in *.
  assert (Hws : forallb is_space ws = true)
    by (unfold ws; rewrite forallb_rev; apply takewhile_all).
  assert (Hnil : ws = []).
  { destruct (rstrip (c :: l)) as [|c' r] eqn:Er.
    - simpl in E. rewrite <- E in Hws. simpl in Hws.
      rewrite Hc in Hws. discriminate.
    - simpl in E. injection E as _ E.
      apply (@strip_no_trailing l r ws); [rewrite Hl; exact E | exact Hws]. }
  rewrite Hnil, app_nil_r in E. symmetry. exact E.
Qed.

(** With [>] put back in front of each line, the lines of a root unit are
    read as they are. *)
Lemma verse_lines_prefixed (L : list text) :
  L <> [] ->
  Forall (fun l => strip l = l
                   /\ forallb (fun c => negb (Ascii.eqb c NL)) l = true) L ->
  verse_lines (join [NL] (map (fun l => T ">" ++ l) L)) = L.
Proof.
  intros Hne HL. unfold verse_lines. rewrite split_nl_of_join.
  - clear Hne. induction L as [|l L IH]; [reflexivity|].
    inversion HL as [|? ? [Hl _] HL']; subst.
    cbn [map filter].
    change (T ">" ++ l) with (">"%char :: l).
    rewrite (@strip_cons_keep ">"%char l eq_refl Hl).
    change (startswith (T ">") (">"%char :: l)) with true.
    cbn [map]. rewrite (@strip_cons_keep ">"%char l eq_refl Hl).
    cbn [tl]. rewrite Hl, (IH HL'). reflexivity.
  - destruct L; [congruence | discriminate].
  - apply Forall_forall. intros y Hy. apply in_map_iff in Hy.
    destruct Hy as [l [<- Hl]]. rewrite Forall_forall in HL.
    destruct (HL _ Hl) as [_ Hn]. simpl. exact Hn.
Qed.

Lemma seni_reextract (content k c : text) :
  In (k, c) (written (extract_root_verses content)) ->
  extract_root_verses (prefixed c) = [Wrote k c].
Proof.
  intros H. apply seni_written in H.
  pose proof (verses_are_runs (verse_lines content)) as Hr.
  rewrite Forall_forall in Hr. apply Hr in H.
  destruct H as [a [seg [l [b [E [Hc [Hseg Hl]]]]]]]. simpl in Hc, Hl.
  assert (Hclean : Forall (fun l => strip l = l
                     /\ forallb (fun c => negb (Ascii.eqb c NL)) l = true)
                          (seg ++ [l])).
  { pose proof (verse_lines_clean content) as Hall. rewrite E in Hall.
    apply Forall_app in Hall. destruct Hall as [_ Hall].
    apply Forall_app. apply Forall_app in Hall. destruct Hall as [H1 H2].
    split; [exact H1|]. inversion H2; subst.
    constructor; [assumption | constructor]. }
  assert (Hne : seg ++ [l] <> []) by (destruct seg; discriminate).
  unfold extract_root_verses, prefixed.
  rewrite Hc, (split_nl_of_join Hne).
  - rewrite (verse_lines_prefixed Hne Hclean).
    unfold group_verses. rewrite fold_left_app, (fold_gathers [] [] Hseg).
    cbn [fold_left]. unfold step. rewrite Hl. reflexivity.
  - eapply Forall_impl; [| exact Hclean]. intros y [_ Hy]. exact Hy.
Qed.

End SeniRuns.

(** C4, as the code has it.  Under the verse-end dialect the content of
    every written unit ends, character for character, with the closing
    marker of its key as its corpus writes it: [|| X.Y ||] in
    [bca_root_extract.py], and [|| SeNi N ||] in [seni_extract.py], where
    the key is the number alone.  Read again by [bca_root_extract.py], a
    saved unit in which the marker pattern matches at no position before
    that closing marker gives exactly the unit back, under the same key.
    A saved unit of [seni_extract.py] has lost the [>] of its lines; with
    [>] put back in front of each of its lines it gives exactly the unit
    back, under the same key. *)
Theorem saved_verse_reads_back (content k c : text) :
  (In (k, c) (written (BcaRoot.extract_verse_sections content)) ->
   endswith c (T "|| " ++ k ++ T " ||") = true
   /\ ((forall i, i < length c - length (T "|| " ++ k ++ T " ||") ->
                  BcaRoot.marker_at (skipn i c) = None) ->
       BcaRoot.extract_verse_sections c = [Wrote k c]))
  /\ (In (k, c) (written (Seni.extract_root_verses content)) ->
      endswith c (T "|| SeNi " ++ k ++ T " ||") = true
      /\ Seni.extract_root_verses (Seni.prefixed c) = [Wrote k c]).
Proof.
  split; intros H.
  - split.
    + apply bca_root_written in H. destruct H as [pre [_ [-> _]]].
      apply endswith_iff. exists (lstrip_nl (strip pre) ++ T " ").
      unfold BcaRoot.closing. rewrite <- !app_assoc. reflexivity.
    + exact (@bca_root_reextract content k c H).
  - split.
    + apply seni_written in H.
      pose proof (verses_terminated content) as Ht.
      rewrite Forall_forall in Ht. apply Ht in H.
      destruct H as [ls [l [Hc [_ [a Hl]]]]]. simpl in Hc, Hl.
      apply endswith_iff. destruct (join_ends [NL] ls l) as [b Hb].
      exists (b ++ a). rewrite Hc, Hb, Hl. unfold Seni.closing.
      rewrite <- !app_assoc. reflexivity.
    + exact (@seni_reextract content k c H).
Qed.

Lemma saved_verse_reads_back_witness :
  let doc := join [NL] [T "Line one || 1.1 ||"; T "Line two || 1.2 ||"] in
  let unit := T "Line two || 1.2 ||" in
  (In (T "1.2", unit) (written (BcaRoot.extract_verse_sections doc))
   /\ (forall i, i < length unit - length (T "|| " ++ T "1.2" ++ T " ||") ->
                 BcaRoot.marker_at (skipn i unit) = None)
   /\ endswith unit (T "|| " ++ T "1.2" ++ T " ||") = true
   /\ BcaRoot.extract_verse_sections unit = [Wrote (T "1.2") unit])
  /\ (In (T "7", T "a || SeNi 7 ||")
         (written (Seni.extract_root_verses (T ">  a || SeNi 7 ||")))
      /\ Seni.prefixed (T "a || SeNi 7 ||") = T ">a || SeNi 7 ||"
      /\ endswith (T "a || SeNi 7 ||") (T "|| SeNi " ++ T "7" ++ T " ||") = true
      /\ Seni.extract_root_verses (Seni.prefixed (T "a || SeNi 7 ||"))
         = [Wrote (T "7") (T "a || SeNi 7 ||")]).
Proof.
  cbv zeta.
  assert (H1 : In (T "1.2", T "Line two || 1.2 ||")
                  (written (BcaRoot.extract_verse_sections
                              (join [NL] [T "Line one || 1.1 ||";
                                          T "Line two || 1.2 ||"]))))
    by (simpl; right; left; reflexivity).
  assert (H2 : forall i,
             i < length (T "Line two || 1.2 ||")
                 - length (T "|| " ++ T "1.2" ++ T " ||") ->
             BcaRoot.marker_at (skipn i (T "Line two || 1.2 ||")) = None).
  { intros i Hi. do 9 (destruct i as [|i]; [reflexivity|]).
    simpl in Hi. lia. }
  assert (H3 : In (T "7", T "a || SeNi 7 ||")
                  (written (Seni.extract_root_verses (T ">  a || SeNi 7 ||"))))
    by (simpl; left; reflexivity).
  pose proof (saved_verse_reads_back
                (join [NL] [T "Line one || 1.1 ||"; T "Line two || 1.2 ||"])
                (T "1.2") (T "Line two || 1.2 ||")) as [Hb _].
  pose proof (saved_verse_reads_back
                (T ">  a || SeNi 7 ||") (T "7") (T "a || SeNi 7 ||"))
    as [_ Hs].
  destruct (Hb H1) as [Hb1 Hb2]. destruct (Hs H3) as [Hs1 Hs2].
  split.
  - split; [exact H1|]. split; [exact H2|]. split; [exact Hb1|].
    exact (Hb2 H2).
  - split; [exact H3|]. split; [reflexivity|]. split; [exact Hs1 | exact Hs2].
Defined.

(** C4, as stated, fails.  The unit of verse 7 of the labelled corpus ends
    with [|| SeNi 7 ||] and not with [|| 7 ||], and read again as it was
    saved it gives no verse at all, its line having lost the [>].  In
    [bca_root_extract.py] the verse text [a || 1.1] before the marker of
    2.2 is saved as [a || 1.1 || 2.2 ||], and read again this gives the
    unit [a || 1.1 ||] under the key 1.1. *)
Lemma labelled_marker_keeps_its_label :
  Seni.extract_root_verses (T "> a || SeNi 7 ||")
  = [Wrote (T "7") (T "a || SeNi 7 ||")]
  /\ endswith (T "a || SeNi 7 ||") (T "|| " ++ T "7" ++ T " ||") = false
  /\ Seni.extract_root_verses (T "a || SeNi 7 ||") = []
  /\ BcaRoot.extract_verse_sections (T "a || 1.1|| 2.2 ||")
     = [Wrote (T "2.2") (T "a || 1.1 || 2.2 ||")]
  /\ BcaRoot.extract_verse_sections (T "a || 1.1 || 2.2 ||")
     = [Wrote (T "1.1") (T "a || 1.1 ||")].
Proof. repeat split. Qed.

(** ** What a unit keeps of the document *)

Section Cut.





End Cut.

Section Sections.
Import SectionHeader.

Variable marker : text -> option text.
Hypothesis marker_sound : forall l k, marker l = Some k -> l = marker_line k.








End Sections.

Section LinePrefix.
Import Medu.




End LinePrefix.

Section VerseEnd.
Import BcaRoot.




End VerseEnd.

Section UnitsCut.





End UnitsCut.



